(** * yabc: a command-line client posting to Bluesky

    A shallow embedding of the Go sources of [alexisbcz/yabc]:
    - package [bluesky]: [CreatePost], [getCurrentTime], [uploadImage],
      [getMimeType], [getImageDimensions] and the response types;
    - package [posts]: the [Run] closure of [newCreatePostCommand], in
      the revision that prompts and in the revision that takes the flags
      alone;
    - package [cmd]: [Execute].

    Go strings are byte sequences and are modelled by [string] (a list of
    8-bit [ascii]); [int] values are modelled by [Z].  Everything the
    program observes of its environment (clock, file system, HTTP
    transport, JSON codec, terminal form) is gathered in a record of
    oracles, and everything it does to its environment is recorded in a
    trace of events. *)

From Stdlib Require Import ZArith List String Ascii Bool Lia.
Import ListNotations.

Local Open Scope string_scope.
Local Open Scope Z_scope.

(** ** Go library functions used by the sources *)

Module GoLib.

(** [len(b)] of a byte slice, counted with an integer accumulator. *)
Definition lenBytes (b : list Byte.byte) : Z :=
  fold_left (fun n _ => n + 1) b 0.

(** The decimal digit [0..9] as a character. *)
Definition digitChar (d : Z) : ascii :=
  ascii_of_nat (48 + Z.to_nat d).

(** The [n] least significant decimal digits of [u], most significant
    first. *)
Fixpoint lastDigits (n : nat) (u : Z) : string :=
  match n with
  | O => ""
  | S k => lastDigits k (u / 10) ++ String (digitChar (u mod 10)) ""
  end.

(** Number of decimal digits of [u >= 0], as [time.appendInt] counts
    them: one for zero, then one per division by ten. *)
Fixpoint countDigits (fuel : nat) (u : Z) : nat :=
  match fuel with
  | O => O
  | S f => if u <=? 0 then O else S (countDigits f (u / 10))
  end.

Definition numDigits (u : Z) : nat :=
  if u =? 0 then 1%nat else countDigits (S (Z.to_nat (Z.log2 u))) u.

Fixpoint zeros (n : nat) : string :=
  match n with
  | O => ""
  | S k => String "0" (zeros k)
  end.

(** [time.appendInt(b, x, width)]: sign, zero padding up to [width],
    decimal digits. *)
Definition appendInt (x : Z) (width : nat) : string :=
  let u := Z.abs x in
  let n := numDigits u in
  (if x <? 0 then "-" else "") ++ zeros (width - n) ++ lastDigits n u.

(** [strconv.Itoa], the rendering of [%d] by [fmt]. *)
Definition itoa (x : Z) : string := appendInt x 0.

(** The loop of [time.appendNano] that drops trailing ['0'] bytes. *)
Fixpoint trimZeros (s : string) : string :=
  match s with
  | "" => ""
  | String c r =>
      match trimZeros r with
      | "" => if Ascii.eqb c "0" then "" else String c ""
      | r' => String c r'
      end
  end.

Fixpoint lastChar (s : string) : option ascii :=
  match s with
  | "" => None
  | String c "" => Some c
  | String _ r => lastChar r
  end.

Fixpoint dropLast (s : string) : string :=
  match s with
  | "" => ""
  | String _ "" => ""
  | String c r => String c (dropLast r)
  end.

(** [time.appendNano] for the layout element [.999999999]: nothing at
    all for a zero nanosecond field, otherwise a dot and the nine digits
    with the trailing zeros removed. *)
Definition appendNano (nanosec : Z) : string :=
  if nanosec =? 0 then ""
  else
    let b := trimZeros ("." ++ appendInt nanosec 9) in
    match lastChar b with
    | Some "."%char => dropLast b
    | _ => b
    end.

(** [s[:n]]: a run-time panic when [n] exceeds [len(s)]. *)
Fixpoint sliceTo (n : nat) (s : string) : option string :=
  match n with
  | O => Some ""
  | S k =>
      match s with
      | "" => None
      | String c r => option_map (String c) (sliceTo k r)
      end
  end.

(** [s[i:]]. *)
Definition sliceFrom (i : nat) (s : string) : string :=
  substring i (String.length s - i) s.

(** [os.IsPathSeparator] on Unix. *)
Definition isPathSeparator (c : ascii) : bool := Ascii.eqb c "/".

(** The backwards loop of [filepath.Ext]; [n] is [i + 1]. *)
Fixpoint extLoop (path : string) (n : nat) : string :=
  match n with
  | O => ""
  | S i =>
      match get i path with
      | Some c =>
          if isPathSeparator c then ""
          else if Ascii.eqb c "." then sliceFrom i path
          else extLoop path i
      | None => ""
      end
  end.

(** [filepath.Ext]: the suffix starting at the last dot of the last
    path element, empty when there is none. *)
Definition Ext (path : string) : string := extLoop path (String.length path).

Definition isUpperByte (c : ascii) : bool :=
  let n := nat_of_ascii c in (65 <=? n)%nat && (n <=? 90)%nat.

Definition lowerByte (c : ascii) : ascii :=
  if isUpperByte c then ascii_of_nat (nat_of_ascii c + 32) else c.

Fixpoint asciiLower (s : string) : string :=
  match s with
  | "" => ""
  | String c r => String (lowerByte c) (asciiLower r)
  end.

(** Every byte below [utf8.RuneSelf]. *)
Fixpoint isASCII (s : string) : bool :=
  match s with
  | "" => true
  | String c r => (nat_of_ascii c <? 128)%nat && isASCII r
  end.

(** [strings.Split(s, ",")]. *)
Fixpoint splitComma (s : string) : list string :=
  match s with
  | "" => [""]
  | String c r =>
      if Ascii.eqb c ","
      then "" :: splitComma r
      else match splitComma r with
           | [] => [String c ""]
           | w :: ws => String c w :: ws
           end
  end.

End GoLib.
Import GoLib.

(** ** Wall-clock time *)

(** The fields of [time.Now().UTC()]. *)
Record Time := mkTime {
  Year : Z; Month : Z; Day : Z;
  Hour : Z; Minute : Z; Second : Z;
  Nanosecond : Z
}.

(** [t.Format(time.RFC3339Nano)] for a time in UTC: the layout is
    [2006-01-02T15:04:05.999999999Z07:00] and a zero offset prints [Z]. *)
Definition formatRFC3339Nano (t : Time) : string :=
  appendInt (Year t) 4 ++ "-" ++ appendInt (Month t) 2 ++ "-" ++
  appendInt (Day t) 2 ++ "T" ++ appendInt (Hour t) 2 ++ ":" ++
  appendInt (Minute t) 2 ++ ":" ++ appendInt (Second t) 2 ++
  appendNano (Nanosecond t) ++ "Z".

(** [getCurrentTime]: [time.Now().UTC().Format(time.RFC3339Nano)[:23] + "Z"].
    [None] is the run-time panic of the slice expression. *)
Definition getCurrentTime (now : Time) : option string :=
  match sliceTo 23 (formatRFC3339Nano now) with
  | Some prefix => Some (prefix ++ "Z")
  | None => None
  end.

(** ** Data model *)

(** Go's [error] values are represented by their message. *)
Definition error := string.

(** Modelled from the spec: the session token type [DIDResponse] of
    package [bluesky] is declared next to [GetToken], outside the files at
    hand; these are the two fields the code reads (account identifier and
    access token). *)
Record DIDResponse := mkDIDResponse {
  DID : string;
  AccessJwt : string
}.

Record RefLink := mkRefLink { Link : string }.

(** The anonymous struct of [UploadBlobResponse.Blob]. *)
Record BlobInfo := mkBlobInfo {
  BlobType : string;
  Ref : RefLink;
  MimeType : string;
  Size : Z
}.

Record UploadBlobResponse := mkUploadBlobResponse { Blob : BlobInfo }.

(** The anonymous struct of [PostCreateResponse.Record]. *)
Record PostRecord := mkPostRecord {
  RecordType : string;
  Text : string;
  CreatedAt : string
}.

Record PostCreateResponse := mkPostCreateResponse {
  URI : string;
  CID : string;
  PostedRecord : PostRecord
}.

Record BlobReference := mkBlobReference {
  RefType : string;
  RefRef : RefLink;
  RefMimeType : string;
  RefSize : Z
}.

(** Values of [map[string]interface{}] and their contents; a map literal
    is kept as an association list in source order. *)
#[warnings="-register-all"]
Inductive JSON :=
| JNull
| JBool (b : bool)
| JNumber (n : Z)
| JString (s : string)
| JArray (items : list JSON)
| JObject (fields : list (string * JSON)).

Definition JMap := list (string * JSON).

(** [m[key]] for a map read: the first binding of [key]. *)
Fixpoint mapGet (key : string) (m : JMap) : option JSON :=
  match m with
  | [] => None
  | (k, v) :: rest => if String.eqb k key then Some v else mapGet key rest
  end.

(** [m[key] = v] on a map that has no binding of [key] yet. *)
Definition mapSet (key : string) (v : JSON) (m : JMap) : JMap :=
  (m ++ [(key, v)])%list.

Inductive RequestBody :=
| BodyBytes (data : list Byte.byte)
| BodyText (data : string).

Definition Header := list (string * string).

Record Request := mkRequest {
  Method : string;
  URL : string;
  ReqHeader : Header;
  ReqBody : RequestBody
}.

(** [h.Set(key, value)]: replaces whatever [key] was bound to. *)
Definition headerSet (key value : string) (h : Header) : Header :=
  (filter (fun kv => negb (String.eqb (fst kv) key)) h ++ [(key, value)])%list.

Fixpoint headerGet (key : string) (h : Header) : option string :=
  match h with
  | [] => None
  | (k, v) :: rest => if String.eqb k key then Some v else headerGet key rest
  end.

Definition setHeader (key value : string) (r : Request) : Request :=
  mkRequest (Method r) (URL r) (headerSet key value (ReqHeader r)) (ReqBody r).

(** An HTTP response: the status and what reading the body yields (an
    error of the transport, or the bytes). *)
Record Response := mkResponse {
  StatusCode : Z;
  RespBody : error + string
}.

Inductive StatResult :=
| StatOk
| StatNotExist
| StatError (e : error).

(** ** Effects *)

Inductive Level := LevelInfo | LevelWarn | LevelError.

Inductive LogValue :=
| LString (s : string)
| LInt (n : Z)
| LError (e : error)
| LMap (m : JMap).

Inductive Event :=
| Println (line : string)
| Slog (level : Level) (msg : string) (attrs : list (string * LogValue))
| HttpDo (timeout : option Z) (req : Request) (res : error + Response)
| Authenticate (res : error + DIDResponse)
| Prompt (res : error + string * string * string).

(** How a computation ends: normally, by [os.Exit], or by a run-time
    panic. *)
Inductive Outcome (A : Type) :=
| Done (a : A)
| Exit (code : Z)
| Panic.
Arguments Done {A} a.
Arguments Exit {A} code.
Arguments Panic {A}.

(** A computation: its outcome and the events it produced, in order. *)
Definition Run (A : Type) : Type := Outcome A * list Event.

Definition ret {A} (a : A) : Run A := (Done a, []).

Definition bind {A B} (m : Run A) (k : A -> Run B) : Run B :=
  match m with
  | (Done a, t) => let (r, t') := k a in (r, (t ++ t')%list)
  | (Exit c, t) => (Exit c, t)
  | (Panic, t) => (Panic, t)
  end.

Notation "x <- m ;; k" := (bind m (fun x => k))
  (at level 61, m at next level, right associativity).
Notation "m ;;; k" := (bind m (fun _ => k))
  (at level 61, right associativity).

Definition emit (e : Event) : Run unit := (Done tt, [e]).
Definition osExit {A} (code : Z) : Run A := (Exit code, []).
Definition panic {A} : Run A := (Panic, []).

Definition println (line : string) : Run unit := emit (Println line).
Definition slogInfo msg attrs : Run unit := emit (Slog LevelInfo msg attrs).
Definition slogWarn msg attrs : Run unit := emit (Slog LevelWarn msg attrs).
Definition slogError msg attrs : Run unit := emit (Slog LevelError msg attrs).

(** ** The environment *)

(** What the program reads from its environment, and the declarations of
    package [bluesky] that live outside the files at hand ([API_URL],
    [GetToken]).  Library functions whose behaviour rests on tables that
    are not part of the repository (Unicode case mapping and white space,
    URL parsing, the JSON codec, image headers) are oracles as well. *)
Record World := mkWorld {
  (** [time.Now().UTC()] *)
  now : Time;
  (** [os.Stat] *)
  osStat : string -> StatResult;
  (** [os.ReadFile] *)
  osReadFile : string -> error + list Byte.byte;
  (** [os.Open], [None] when the file opens *)
  osOpen : string -> option error;
  (** [image.DecodeConfig] on the opened file: width and height *)
  imageDecodeConfig : string -> error + Z * Z;
  (** [strings.Map(unicode.ToLower, s)], taken by [strings.ToLower] off
      its ASCII path *)
  unicodeToLower : string -> string;
  (** [strings.TrimSpace] *)
  TrimSpace : string -> string;
  (** the failure of [http.NewRequest] on a URL, [None] when it parses *)
  urlError : string -> option error;
  (** [client.Do] *)
  httpDo : Request -> error + Response;
  (** [json.Marshal] *)
  jsonMarshal : JSON -> error + string;
  (** [json.Unmarshal] into a [map[string]interface{}] *)
  jsonUnmarshalMap : string -> option JMap;
  (** [json.Unmarshal] into an [UploadBlobResponse] *)
  jsonUnmarshalBlob : string -> error + UploadBlobResponse;
  (** [json.NewDecoder(r).Decode] into a [map[string]interface{}] *)
  jsonDecodeMap : string -> option JMap;
  (** [json.NewDecoder(r).Decode] into a [PostCreateResponse] *)
  jsonDecodePost : string -> option PostCreateResponse;
  (** the package variable [bluesky.API_URL] *)
  API_URL : string;
  (** the result of [bluesky.GetToken()] *)
  GetToken : error + DIDResponse;
  (** [form.Run()] of the interactive form: its error, or the values it
      stored in [text], [hashtagInput] and [imageFile] *)
  formRun : error + string * string * string
}.

(** ** Package [bluesky] *)

(** [strings.ToLower]: byte-wise on an ASCII string, the Unicode mapping
    otherwise. *)
Definition ToLower (w : World) (s : string) : string :=
  if isASCII s then asciiLower s else unicodeToLower w s.

(** [getMimeType]. *)
Definition getMimeType (w : World) (filename : string) : string :=
  let ext := ToLower w (Ext filename) in
  if String.eqb ext ".jpg" || String.eqb ext ".jpeg" then "image/jpeg"
  else if String.eqb ext ".png" then "image/png"
  else if String.eqb ext ".gif" then "image/gif"
  else if String.eqb ext ".webp" then "image/webp"
  else "".

(** [getImageDimensions]: width, height and error. *)
Definition getImageDimensions (w : World) (imagePath : string)
  : Z * Z * option error :=
  match osOpen w imagePath with
  | Some e =>
      (0, 0, Some ("failed to open image for dimension detection: " ++ e))
  | None =>
      match imageDecodeConfig w imagePath with
      | inl e => (0, 0, Some ("failed to decode image dimensions: " ++ e))
      | inr (width, height) => (width, height, None)
      end
  end.

(** [http.NewRequest(method, url, body)]. *)
Definition httpNewRequest (w : World) (method url : string)
  (body : RequestBody) : error + Request :=
  match urlError w url with
  | Some e => inl e
  | None => inr (mkRequest method url [] body)
  end.

(** [client.Do(req)], recorded in the trace. *)
Definition clientDo (w : World) (timeout : option Z) (req : Request)
  : Run (error + Response) :=
  let res := httpDo w req in
  emit (HttpDo timeout req res) ;;; ret res.

(** The size limit of [uploadImage], in bytes. *)
Definition maxImageSize : Z := 1000000.

(** [uploadImage]: the blob response, or the error. *)
Definition uploadImage (w : World) (token : DIDResponse) (imagePath : string)
  : Run (error + UploadBlobResponse) :=
  match osStat w imagePath with
  | StatNotExist => ret (inl ("image file does not exist: " ++ imagePath))
  | StatError e => ret (inl ("cannot access image file: " ++ e))
  | StatOk =>
  match osReadFile w imagePath with
  | inl e => ret (inl ("failed to read image file: " ++ e))
  | inr imgData =>
  if lenBytes imgData >? maxImageSize then
    ret (inl ("image file size too large: " ++ itoa (lenBytes imgData)
              ++ " bytes (1,000,000 bytes maximum)"))
  else
  let mimeType := getMimeType w imagePath in
  let mimeType := if String.eqb mimeType "" then "image/jpeg" else mimeType in
  slogInfo "Uploading image"
    [("path", LString imagePath); ("size", LInt (lenBytes imgData));
     ("mimeType", LString mimeType)] ;;;
  let url := API_URL w ++ "/com.atproto.repo.uploadBlob" in
  match httpNewRequest w "POST" url (BodyBytes imgData) with
  | inl e => ret (inl ("failed to create request: " ++ e))
  | inr req =>
  let req := setHeader "Authorization" ("Bearer " ++ AccessJwt token) req in
  let req := setHeader "Content-Type" mimeType req in
  sent <- clientDo w (Some 30) req ;;
  match sent with
  | inl e => ret (inl ("failed to send request: " ++ e))
  | inr resp =>
  match RespBody resp with
  | inl e => ret (inl ("failed to read response body: " ++ e))
  | inr respBody =>
  if negb (StatusCode resp =? 200) then
    match jsonUnmarshalMap w respBody with
    | Some errResp =>
        slogError "API error response" [("response", LMap errResp)] ;;;
        match mapGet "message" errResp with
        | Some (JString message) => ret (inl ("API error: " ++ message))
        | _ =>
            ret (inl ("unexpected status code: " ++ itoa (StatusCode resp)
                      ++ " - " ++ respBody))
        end
    | None =>
        ret (inl ("unexpected status code: " ++ itoa (StatusCode resp)
                  ++ " - " ++ respBody))
    end
  else
  match jsonUnmarshalBlob w respBody with
  | inl e =>
      ret (inl ("failed to decode response: " ++ e ++ " - body: " ++ respBody))
  | inr blobResp =>
  if String.eqb (Link (Ref (Blob blobResp))) "" then
    ret (inl ("invalid response: missing blob reference link - body: "
              ++ respBody))
  else
  slogInfo "Image uploaded successfully"
    [("blob_link", LString (Link (Ref (Blob blobResp))));
     ("size", LInt (lenBytes imgData))] ;;;
  ret (inr blobResp)
  end end end end end end.

(** The panicking call [getCurrentTime()] inside a computation. *)
Definition getCurrentTimeNow (w : World) : Run string :=
  match getCurrentTime (now w) with
  | Some s => ret s
  | None => panic
  end.

(** A response body handed to [json.NewDecoder(resp.Body).Decode]: a body
    that cannot be read does not decode. *)
Definition decodeBody {A} (decode : string -> option A) (resp : Response)
  : option A :=
  match RespBody resp with
  | inl _ => None
  | inr body => decode body
  end.

(** [CreatePost]: [None] is the [nil] error. *)
Definition CreatePost (w : World) (token : DIDResponse)
  (content imagePath : string) : Run (option error) :=
  createdAt <- getCurrentTimeNow w ;;
  let record : JMap :=
    [("$type", JString "app.bsky.feed.post");
     ("text", JString content);
     ("createdAt", JString createdAt)] in
  withEmbed <-
    (if negb (String.eqb imagePath "") then
       println ("Uploading image: " ++ imagePath) ;;;
       uploaded <- uploadImage w token imagePath ;;
       match uploaded with
       | inl e => ret (inl ("failed to upload image: " ++ e))
       | inr blobResp =>
           let '(width, height, err) := getImageDimensions w imagePath in
           match err with
           | Some e =>
               slogWarn "Could not determine image dimensions"
                 [("error", LError e)] ;;;
               println "Warning: Could not determine image dimensions, aspect ratio won't be specified"
           | None => ret tt
           end ;;;
           let imageEmbed : JMap :=
             [("alt", JString "Attached image");
              ("image", JObject
                 [("$type", JString "blob");
                  ("ref", JObject
                     [("$link", JString (Link (Ref (Blob blobResp))))]);
                  ("mimeType", JString (MimeType (Blob blobResp)));
                  ("size", JNumber (Size (Blob blobResp)))])] in
           let imageEmbed :=
             if (width >? 0) && (height >? 0) then
               mapSet "aspectRatio"
                 (JObject [("width", JNumber width);
                           ("height", JNumber height)]) imageEmbed
             else imageEmbed in
           ret (inr (mapSet "embed"
                       (JObject [("$type", JString "app.bsky.embed.images");
                                 ("images", JArray [JObject imageEmbed])])
                       record))
       end
     else ret (inr record)) ;;
  match withEmbed with
  | inl e => ret (Some e)
  | inr record =>
  let requestBody :=
    JObject [("collection", JString "app.bsky.feed.post");
             ("repo", JString (DID token));
             ("record", JObject record)] in
  match jsonMarshal w requestBody with
  | inl e => ret (Some ("failed to marshal request body: " ++ e))
  | inr jsonBody =>
  let url := API_URL w ++ "/com.atproto.repo.createRecord" in
  match httpNewRequest w "POST" url (BodyText jsonBody) with
  | inl e => ret (Some ("failed to create request: " ++ e))
  | inr req =>
  let req := setHeader "Authorization" ("Bearer " ++ AccessJwt token) req in
  let req := setHeader "Content-Type" "application/json" req in
  sent <- clientDo w None req ;;
  match sent with
  | inl e => ret (Some ("failed to send request: " ++ e))
  | inr resp =>
  if negb (StatusCode resp =? 200) then
    match decodeBody (jsonDecodeMap w) resp with
    | Some errResp =>
        slogError "API error response" [("response", LMap errResp)]
    | None => ret tt
    end ;;;
    ret (Some ("unexpected status code: " ++ itoa (StatusCode resp)))
  else
    match decodeBody (jsonDecodePost w) resp with
    | Some postResp =>
        slogInfo "Post created"
          [("uri", LString (URI postResp)); ("cid", LString (CID postResp))]
    | None => ret tt
    end ;;;
    ret None
  end end end end.

(** ** Package [posts]: the [create] command *)

(** The loop that formats the text with the hashtags:
    [content := text; for _, tag := range hashtags { content += " #" + tag }]. *)
Definition composeContent (text : string) (hashtags : list string) : string :=
  fold_left (fun content tag => content ++ " #" ++ tag) hashtags text.

(** The call [bluesky.GetToken()], recorded in the trace: it is the
    authentication round-trip. *)
Definition getToken (w : World) : Run (error + DIDResponse) :=
  emit (Authenticate (GetToken w)) ;;; ret (GetToken w).

(** [form.Run()], recorded in the trace. *)
Definition runForm (w : World) : Run (error + string * string * string) :=
  emit (Prompt (formRun w)) ;;; ret (formRun w).

(** The messages of the command. *)
Definition msgAuthFailed : string := "Error: Failed to authenticate with Bluesky".
Definition msgPostFailed : string := "Error: Failed to create post".
Definition msgPostCreated : string := "Post created successfully!".
Definition msgMissingInput : string :=
  "Error: You must provide either text content or an image to post".

(** The [Run] closure of [newCreatePostCommand]; its arguments are the
    package variables [text], [hashtags] and [imageFile] as the flags left
    them. *)
Definition runCreate (w : World) (text : string) (hashtags : list string)
  (imageFile : string) : Run unit :=
  vars <-
    (if String.eqb text "" && String.eqb imageFile "" then
       filled <- runForm w ;;
       match filled with
       | inl e =>
           slogError "Failed to get user input" [("error", LError e)] ;;;
           osExit 1
       | inr (text', hashtagInput, imageFile') =>
           if negb (String.eqb hashtagInput "") then
             ret (text', map (TrimSpace w) (splitComma hashtagInput),
                  imageFile')
           else ret (text', hashtags, imageFile')
       end
     else ret (text, hashtags, imageFile)) ;;
  let '(text, hashtags, imageFile) := vars in
  let content := composeContent text hashtags in
  token <- getToken w ;;
  match token with
  | inl e =>
      slogError "Failed to get authentication token" [("error", LError e)] ;;;
      println msgAuthFailed
  | inr token =>
      failed <- CreatePost w token content imageFile ;;
      match failed with
      | Some e =>
          slogError "Failed to create post" [("error", LError e)] ;;;
          println msgPostFailed
      | None => println msgPostCreated
      end
  end.

(** ** Package [cmd]: the root command *)

(** What [rootCmd.Execute()] makes of the command line: an error (unknown
    command or flag, malformed flag value), nothing to run (help or
    usage), or the [posts create] command with its three flags. *)
Inductive CommandLine :=
| ParseFailure (e : error)
| NoAction
| PostsCreate (text : string) (hashtags : list string) (imageFile : string).

(** [Execute]: [os.Exit(1)] when [rootCmd.Execute()] returns an error. *)
Definition Execute (w : World) (args : CommandLine) : Run unit :=
  match args with
  | ParseFailure _ => osExit 1
  | NoAction => ret tt
  | PostsCreate text hashtags imageFile => runCreate w text hashtags imageFile
  end.

(** The exit status of the process: 0 when [main] returns, the argument
    of [os.Exit], and 2 after a run-time panic. *)
Definition exitStatus {A} (r : Run A) : Z :=
  match fst r with
  | Done _ => 0
  | Exit code => code
  | Panic => 2
  end.

(** ** The flags-only revision of the [create] command

    The same source file also holds the revision of the command that takes
    its input from the flags alone; it guards the post with an explicit
    check and sends the record itself. *)

Module FlagsOnly.

(** [createPost]; [createdAt] is [time.Now().Format(time.RFC3339)], the
    local time of the call. *)
Definition createPost (w : World) (createdAt : string) (token : DIDResponse)
  (content imagePath : string) : Run (option error) :=
  let record : JMap :=
    [("$type", JString "app.bsky.feed.post");
     ("text", JString content);
     ("createdAt", JString createdAt)] in
  (if negb (String.eqb imagePath "") then
     slogInfo "Image attachment requested but not implemented in this version" [] ;;;
     println "Note: Image attachment functionality is not yet implemented"
   else ret tt) ;;;
  let requestBody :=
    JObject [("collection", JString "app.bsky.feed.post");
             ("repo", JString (DID token));
             ("record", JObject record)] in
  match jsonMarshal w requestBody with
  | inl e => ret (Some ("failed to marshal request body: " ++ e))
  | inr jsonBody =>
  let url := "https://bsky.social/xrpc" ++ "/com.atproto.repo.createRecord" in
  match httpNewRequest w "POST" url (BodyText jsonBody) with
  | inl e => ret (Some ("failed to create request: " ++ e))
  | inr req =>
  let req := setHeader "Authorization" ("Bearer " ++ AccessJwt token) req in
  let req := setHeader "Content-Type" "application/json" req in
  sent <- clientDo w None req ;;
  match sent with
  | inl e => ret (Some ("failed to send request: " ++ e))
  | inr resp =>
  if negb (StatusCode resp =? 200) then
    ret (Some ("unexpected status code: " ++ itoa (StatusCode resp)))
  else ret None
  end end end.

(** The [Run] closure of this revision. *)
Definition runCreate (w : World) (createdAt : string) (text : string)
  (hashtags : list string) (imageFile : string) : Run unit :=
  if String.eqb text "" && String.eqb imageFile "" then
    println msgMissingInput
  else
    let content := composeContent text hashtags in
    token <- getToken w ;;
    match token with
    | inl e =>
        slogError "Failed to get authentication token"
          [("error", LError e)] ;;;
        println msgAuthFailed
    | inr token =>
        failed <- createPost w createdAt token content imageFile ;;
        match failed with
        | Some e =>
            slogError "Failed to create post" [("error", LError e)] ;;;
            println msgPostFailed
        | None => println msgPostCreated
        end
    end.

End FlagsOnly.

(** ** The properties in the words of the specification *)

(** The composed content as the specification words it: the text followed
    by, for each hashtag in order, a space, ['#'] and the hashtag. *)
Definition contentSpec (text : string) (hashtags : list string) : string :=
  text ++ String.concat "" (map (fun tag => " #" ++ tag) hashtags).

(** The extensions of the fixed MIME table. *)
Definition knownExtensions : list string :=
  [".jpg"; ".jpeg"; ".png"; ".gif"; ".webp"].

(** A file extension proper: no dot and no path separator in it. *)
Fixpoint plainExtension (s : string) : bool :=
  match s with
  | "" => true
  | String c r =>
      negb (isPathSeparator c) && negb (Ascii.eqb c ".") && plainExtension r
  end.

(** Lower-case ASCII letters only. *)
Fixpoint lowerLetters (s : string) : bool :=
  match s with
  | "" => true
  | String c r =>
      (97 <=? nat_of_ascii c)%nat && (nat_of_ascii c <=? 122)%nat
      && lowerLetters r
  end.

Inductive CharClass :=
| Digit
| Lit (c : ascii).

Definition isDigit (c : ascii) : bool :=
  let n := nat_of_ascii c in (48 <=? n)%nat && (n <=? 57)%nat.

Fixpoint allDigits (s : string) : bool :=
  match s with
  | "" => true
  | String c r => isDigit c && allDigits r
  end.

Fixpoint matchesPattern (p : list CharClass) (s : string) : bool :=
  match p, s with
  | [], "" => true
  | Digit :: p', String c s' => isDigit c && matchesPattern p' s'
  | Lit l :: p', String c s' => Ascii.eqb c l && matchesPattern p' s'
  | _, _ => false
  end.

(** [YYYY-MM-DDTHH:MM:SS.mmmZ]: an ISO-8601 instant in UTC with exactly
    three fractional digits. *)
Definition iso8601Millis : list CharClass :=
  [Digit; Digit; Digit; Digit; Lit "-"; Digit; Digit; Lit "-"; Digit; Digit;
   Lit "T"; Digit; Digit; Lit ":"; Digit; Digit; Lit ":"; Digit; Digit;
   Lit "."; Digit; Digit; Digit; Lit "Z"].

Definition validTimestamp (s : string) : bool := matchesPattern iso8601Millis s.

(** A clock reading the formats of which are defined: calendar fields in
    range. *)
Definition wellFormedTime (t : Time) : Prop :=
  0 <= Year t <= 9999 /\ 1 <= Month t <= 12 /\ 1 <= Day t <= 31 /\
  0 <= Hour t <= 23 /\ 0 <= Minute t <= 59 /\ 0 <= Second t <= 59 /\
  0 <= Nanosecond t <= 999999999.

(** The timestamp of a clock reading, field by field, with the
    milliseconds of the nanosecond field. *)
Definition timestampSpec (t : Time) : string :=
  lastDigits 4 (Year t) ++ "-" ++ lastDigits 2 (Month t) ++ "-" ++
  lastDigits 2 (Day t) ++ "T" ++ lastDigits 2 (Hour t) ++ ":" ++
  lastDigits 2 (Minute t) ++ ":" ++ lastDigits 2 (Second t) ++ "." ++
  lastDigits 3 (Nanosecond t / 1000000) ++ "Z".

(** A run reports a failure to the user: an error-level log line and a
    short [Error: ...] message on standard output. *)
Definition reportsFailure (trace : list Event) : Prop :=
  (exists msg attrs, In (Slog LevelError msg attrs) trace) /\
  (exists rest, In (Println ("Error: " ++ rest)) trace).

Definition isHttp (e : Event) : bool :=
  match e with
  | HttpDo _ _ _ => true
  | _ => false
  end.

Definition isNetwork (e : Event) : bool :=
  match e with
  | HttpDo _ _ _ | Authenticate _ => true
  | _ => false
  end.

(** ** Sample environments *)

Module Sample.

Definition token : DIDResponse := mkDIDResponse "did:plc:alice" "jwt".

Definition blob (link : string) : UploadBlobResponse :=
  mkUploadBlobResponse (mkBlobInfo "blob" (mkRefLink link) "image/jpeg" 3).

Definition created : PostCreateResponse :=
  mkPostCreateResponse "at://did:plc:alice/app.bsky.feed.post/3kabc"
    "bafyreib" (mkPostRecord "" "" "").

Definition quote : string := String (ascii_of_nat 34) "".

(** A stand-in for [json.Marshal]: compact JSON with the fields in the
    order of the association list and no escaping. *)
Fixpoint render (v : JSON) : string :=
  match v with
  | JNull => "null"
  | JBool b => if b then "true" else "false"
  | JNumber n => itoa n
  | JString s => quote ++ s ++ quote
  | JArray items =>
      "[" ++ (fix elements (l : list JSON) : string :=
                match l with
                | [] => ""
                | [x] => render x
                | x :: rest => render x ++ "," ++ elements rest
                end) items ++ "]"
  | JObject fields =>
      "{" ++ (fix members (l : list (string * JSON)) : string :=
                match l with
                | [] => ""
                | [(k, x)] => quote ++ k ++ quote ++ ":" ++ render x
                | (k, x) :: rest =>
                    quote ++ k ++ quote ++ ":" ++ render x ++ ","
                    ++ members rest
                end) fields ++ "}"
  end.

(** The body of an upload response that carries the blob link [link]. *)
Definition blobBody (link : string) : string :=
  render (JObject
            [("blob", JObject
                [("$type", JString "blob");
                 ("ref", JObject [("$link", JString link)]);
                 ("mimeType", JString "image/jpeg");
                 ("size", JNumber 3)])]).

(** The body of the response to a record creation. *)
Definition createdBody : string :=
  render (JObject [("uri", JString (URI created));
                   ("cid", JString (CID created))]).

(** The body of an error response. *)
Definition errorBody : string :=
  render (JObject [("error", JString "InternalServerError")]).

(** Stand-ins for the decoders: they know the sample bodies and fail on
    anything else. *)
Definition decodeBlob (body : string) : error + UploadBlobResponse :=
  if String.eqb body (blobBody "bafkrei") then inr (blob "bafkrei")
  else if String.eqb body (blobBody "") then inr (blob "")
  else inl "invalid character '<' looking for beginning of value".

Definition decodePost (body : string) : option PostCreateResponse :=
  if String.eqb body createdBody then Some created else None.

Definition decodeMap (body : string) : option JMap :=
  if String.eqb body errorBody
  then Some [("error", JString "InternalServerError")]
  else None.

(** A world with one clock reading, a file system given by [files], a
    server given by [http], and a form that returns [form]. *)
Definition world (t : Time) (files : string -> option (list Byte.byte))
  (http : Request -> error + Response)
  (form : error + string * string * string) : World :=
  {| now := t;
     osStat := fun p => match files p with
                        | Some _ => StatOk
                        | None => StatNotExist
                        end;
     osReadFile := fun p => match files p with
                            | Some d => inr d
                            | None => inl "no such file or directory"
                            end;
     osOpen := fun _ => None;
     imageDecodeConfig := fun _ => inl "image: unknown format";
     unicodeToLower := fun s => s;
     TrimSpace := fun s => s;
     urlError := fun _ => None;
     httpDo := http;
     jsonMarshal := fun v => inr (render v);
     jsonUnmarshalMap := decodeMap;
     jsonUnmarshalBlob := decodeBlob;
     jsonDecodeMap := decodeMap;
     jsonDecodePost := decodePost;
     API_URL := "https://bsky.social/xrpc";
     GetToken := inr token;
     formRun := form |}.

Definition noon : Time := mkTime 2025 1 2 12 0 0 678000000.
Definition wholeSecond : Time := mkTime 2025 1 2 12 0 0 0.
Definition twoDigits : Time := mkTime 2025 1 2 12 0 0 120000000.

Definition noFiles : string -> option (list Byte.byte) := fun _ => None.

Definition oneFile (name : string) (data : list Byte.byte)
  : string -> option (list Byte.byte) :=
  fun p => if String.eqb p name then Some data else None.

Definition smallImage : list Byte.byte := [Byte.x47; Byte.x49; Byte.x46].

Definition bigImage : list Byte.byte := repeat Byte.x00 (Z.to_nat 1000001).

(** A server that answers every request with [status] and [body]. *)
Definition answer (status : Z) (body : string) : Request -> error + Response :=
  fun _ => inr (mkResponse status (inr body)).

(** A server that stores blobs and refuses records. *)
Definition uploadOnly : Request -> error + Response :=
  fun req => match ReqBody req with
             | BodyBytes _ => inr (mkResponse 200 (inr (blobBody "bafkrei")))
             | BodyText _ => inr (mkResponse 500 (inr errorBody))
             end.

Definition emptyForm : error + string * string * string := inr ("", "", "").

End Sample.


(** ** The revision of the command that prompts for the text alone

    Between the flags-only revision and the one with the form, the source
    file holds a revision whose prompt is a single input bound to [text]. *)

Module PromptOnly.

(** What the input leaves in [text], [hashtagInput] (there is none) and
    [imageFile] (untouched, hence empty), in the shape of a [Prompt]
    event. *)
Definition filled (inputRun : error + string)
  : error + string * string * string :=
  match inputRun with
  | inl e => inl e
  | inr text => inr (text, "", "")
  end.

(** The [Run] closure of this revision; [inputRun] is the result of
    [huh.NewInput()...Value(&text).Run()]. *)
Definition runCreate (w : World) (inputRun : error + string) (text : string)
  (hashtags : list string) (imageFile : string) : Run unit :=
  text <-
    (if String.eqb text "" && String.eqb imageFile "" then
       emit (Prompt (filled inputRun)) ;;;
       match inputRun with
       | inl e =>
           slogError "Failed to get user input" [("error", LError e)] ;;;
           osExit 1
       | inr text' => ret text'
       end
     else ret text) ;;
  let content := composeContent text hashtags in
  token <- getToken w ;;
  match token with
  | inl e =>
      slogError "Failed to get authentication token" [("error", LError e)] ;;;
      println msgAuthFailed
  | inr token =>
      failed <- CreatePost w token content imageFile ;;
      match failed with
      | Some e =>
          slogError "Failed to create post" [("error", LError e)] ;;;
          println msgPostFailed
      | None => println msgPostCreated
      end
  end.

End PromptOnly.

(** ** The timestamp of the flags-only revision *)

Module FlagsOnlyClock.

(** The zone of [time.RFC3339], layout element [Z07:00]: [Z] for a zero
    offset, otherwise the sign and the offset in hours and minutes;
    [offset] is in seconds east of UTC and Go's division truncates. *)
Definition zoneSuffix (offset : Z) : string :=
  if offset =? 0 then "Z"
  else
    let zone := Z.quot offset 60 in
    (if zone <? 0 then "-" else "+")
    ++ appendInt (Z.abs zone / 60) 2 ++ ":" ++ appendInt (Z.abs zone mod 60) 2.

(** [t.Format(time.RFC3339)], layout [2006-01-02T15:04:05Z07:00]. *)
Definition formatRFC3339 (t : Time) (offset : Z) : string :=
  appendInt (Year t) 4 ++ "-" ++ appendInt (Month t) 2 ++ "-" ++
  appendInt (Day t) 2 ++ "T" ++ appendInt (Hour t) 2 ++ ":" ++
  appendInt (Minute t) 2 ++ ":" ++ appendInt (Second t) 2 ++
  zoneSuffix offset.

(** [getCurrentTime] of that revision: [time.Now().Format(time.RFC3339)],
    for the local clock reading [local] in the zone at [offset]. *)
Definition getCurrentTime (local : Time) (offset : Z) : string :=
  formatRFC3339 local offset.

End FlagsOnlyClock.

(** ** Measures of a trace and wire formats *)

(** A request sent through the client that has no timeout. *)
Definition isRecordRequest (e : Event) : bool :=
  match e with
  | HttpDo None _ _ => true
  | _ => false
  end.

Definition isPrintln (e : Event) : bool :=
  match e with
  | Println _ => true
  | _ => false
  end.

(** The number of requests sent. *)
Definition countHttp (trace : list Event) : nat :=
  List.length (filter isHttp trace).

(** The final messages of the command. *)
Definition finalMessages : list string :=
  [msgAuthFailed; msgPostFailed; msgPostCreated].

(** Width and height as the record carries them: both, and only when
    both are positive. *)
Definition aspectRatioOf (w : World) (imagePath : string) : option (Z * Z) :=
  let '(width, height, _) := getImageDimensions w imagePath in
  if (width >? 0) && (height >? 0) then Some (width, height) else None.

(** The image of an [app.bsky.embed.images] embed. *)
Definition imageEmbedSpec (blobResp : UploadBlobResponse)
  (ratio : option (Z * Z)) : JMap :=
  ([("alt", JString "Attached image");
    ("image", JObject
       [("$type", JString "blob");
        ("ref", JObject [("$link", JString (Link (Ref (Blob blobResp))))]);
        ("mimeType", JString (MimeType (Blob blobResp)));
        ("size", JNumber (Size (Blob blobResp)))])]
   ++ match ratio with
      | Some (width, height) =>
          [("aspectRatio",
            JObject [("width", JNumber width); ("height", JNumber height)])]
      | None => []
      end)%list.

(** The post record. *)
Definition recordSpec (content createdAt : string) (image : option JMap)
  : JMap :=
  ([("$type", JString "app.bsky.feed.post");
    ("text", JString content);
    ("createdAt", JString createdAt)]
   ++ match image with
      | Some embed =>
          [("embed",
            JObject [("$type", JString "app.bsky.embed.images");
                     ("images", JArray [JObject embed])])]
      | None => []
      end)%list.

(** The body of the record-creation request. *)
Definition requestBodySpec (token : DIDResponse) (record : JMap) : JSON :=
  JObject [("collection", JString "app.bsky.feed.post");
           ("repo", JString (DID token));
           ("record", JObject record)].

(** [YYYY-MM-DDTHH:MM:SS] followed by a zone. *)
Definition rfc3339Seconds (zone : list CharClass) : list CharClass :=
  ([Digit; Digit; Digit; Digit; Lit "-"; Digit; Digit; Lit "-"; Digit; Digit;
    Lit "T"; Digit; Digit; Lit ":"; Digit; Digit; Lit ":"; Digit; Digit]
   ++ zone)%list.

Definition numericZone (sign : ascii) : list CharClass :=
  [Lit sign; Digit; Digit; Lit ":"; Digit; Digit].

(** ** Variations of an environment *)

Definition setForm (w : World) (form : error + string * string * string)
  : World :=
  {| now := now w; osStat := osStat w; osReadFile := osReadFile w;
     osOpen := osOpen w; imageDecodeConfig := imageDecodeConfig w;
     unicodeToLower := unicodeToLower w; TrimSpace := TrimSpace w;
     urlError := urlError w; httpDo := httpDo w;
     jsonMarshal := jsonMarshal w; jsonUnmarshalMap := jsonUnmarshalMap w;
     jsonUnmarshalBlob := jsonUnmarshalBlob w;
     jsonDecodeMap := jsonDecodeMap w; jsonDecodePost := jsonDecodePost w;
     API_URL := API_URL w; GetToken := GetToken w; formRun := form |}.

Definition setToken (w : World) (result : error + DIDResponse) : World :=
  {| now := now w; osStat := osStat w; osReadFile := osReadFile w;
     osOpen := osOpen w; imageDecodeConfig := imageDecodeConfig w;
     unicodeToLower := unicodeToLower w; TrimSpace := TrimSpace w;
     urlError := urlError w; httpDo := httpDo w;
     jsonMarshal := jsonMarshal w; jsonUnmarshalMap := jsonUnmarshalMap w;
     jsonUnmarshalBlob := jsonUnmarshalBlob w;
     jsonDecodeMap := jsonDecodeMap w; jsonDecodePost := jsonDecodePost w;
     API_URL := API_URL w; GetToken := result; formRun := formRun w |}.

Definition setMapDecoder (w : World) (decode : string -> option JMap)
  : World :=
  {| now := now w; osStat := osStat w; osReadFile := osReadFile w;
     osOpen := osOpen w; imageDecodeConfig := imageDecodeConfig w;
     unicodeToLower := unicodeToLower w; TrimSpace := TrimSpace w;
     urlError := urlError w; httpDo := httpDo w;
     jsonMarshal := jsonMarshal w; jsonUnmarshalMap := decode;
     jsonUnmarshalBlob := jsonUnmarshalBlob w;
     jsonDecodeMap := decode; jsonDecodePost := jsonDecodePost w;
     API_URL := API_URL w; GetToken := GetToken w; formRun := formRun w |}.

Definition setImageConfig (w : World) (config : string -> error + Z * Z)
  : World :=
  {| now := now w; osStat := osStat w; osReadFile := osReadFile w;
     osOpen := osOpen w; imageDecodeConfig := config;
     unicodeToLower := unicodeToLower w; TrimSpace := TrimSpace w;
     urlError := urlError w; httpDo := httpDo w;
     jsonMarshal := jsonMarshal w; jsonUnmarshalMap := jsonUnmarshalMap w;
     jsonUnmarshalBlob := jsonUnmarshalBlob w;
     jsonDecodeMap := jsonDecodeMap w; jsonDecodePost := jsonDecodePost w;
     API_URL := API_URL w; GetToken := GetToken w; formRun := formRun w |}.

(** ** The shapes of a run of the [create] command *)

(** The input stage: the package variables as the flags left them, or as
    the form filled them when neither text nor image was given; [pre] is
    the trace of the stage. *)
Inductive Inputs (w : World) (text : string) (hashtags : list string)
  (imageFile : string)
  : list Event -> string -> list string -> string -> Prop :=
| FromFlags :
    String.eqb text "" && String.eqb imageFile "" = false ->
    Inputs w text hashtags imageFile [] text hashtags imageFile
| FromForm text' hashtagInput imageFile' :
    text = "" -> imageFile = "" ->
    formRun w = inr (text', hashtagInput, imageFile') ->
    Inputs w text hashtags imageFile [Prompt (formRun w)] text'
      (if negb (String.eqb hashtagInput "")
       then map (TrimSpace w) (splitComma hashtagInput) else hashtags)
      imageFile'.

(** The five ways a run of the command can go. *)
Inductive RunCase (w : World) (text : string) (hashtags : list string)
  (imageFile : string) : Run unit -> Prop :=
| PromptFailed e :
    text = "" -> imageFile = "" -> formRun w = inl e ->
    RunCase w text hashtags imageFile
      (Exit 1,
       [Prompt (inl e);
        Slog LevelError "Failed to get user input" [("error", LError e)]])
| AuthFailed pre text' hashtags' imageFile' e :
    Inputs w text hashtags imageFile pre text' hashtags' imageFile' ->
    GetToken w = inl e ->
    RunCase w text hashtags imageFile
      (Done tt,
       (pre ++ [Authenticate (inl e);
                Slog LevelError "Failed to get authentication token"
                  [("error", LError e)];
                Println msgAuthFailed])%list)
| PostPanicked pre text' hashtags' imageFile' token :
    Inputs w text hashtags imageFile pre text' hashtags' imageFile' ->
    GetToken w = inr token ->
    getCurrentTime (now w) = None ->
    CreatePost w token (composeContent text' hashtags') imageFile'
    = (Panic, []) ->
    RunCase w text hashtags imageFile
      (Panic, (pre ++ [Authenticate (inr token)])%list)
| PostFailed pre text' hashtags' imageFile' token e posted :
    Inputs w text hashtags imageFile pre text' hashtags' imageFile' ->
    GetToken w = inr token ->
    CreatePost w token (composeContent text' hashtags') imageFile'
    = (Done (Some e), posted) ->
    RunCase w text hashtags imageFile
      (Done tt,
       (pre ++ [Authenticate (inr token)] ++ posted
            ++ [Slog LevelError "Failed to create post" [("error", LError e)];
                Println msgPostFailed])%list)
| PostCreated pre text' hashtags' imageFile' token posted :
    Inputs w text hashtags imageFile pre text' hashtags' imageFile' ->
    GetToken w = inr token ->
    CreatePost w token (composeContent text' hashtags') imageFile'
    = (Done None, posted) ->
    RunCase w text hashtags imageFile
      (Done tt,
       (pre ++ [Authenticate (inr token)] ++ posted
            ++ [Println msgPostCreated])%list).

(** * Properties *)

(** ** Strings *)

Section StringFacts.

Lemma append_nil_r (s : string) : s ++ "" = s.
Proof. induction s as [|c s IH]; simpl; [reflexivity | now rewrite IH]. Qed.

Lemma append_assoc (a b c : string) : (a ++ b) ++ c = a ++ (b ++ c).
Proof. induction a as [|x a IH]; simpl; [reflexivity | now rewrite IH]. Qed.

Lemma length_append (a b : string) :
  String.length (a ++ b) = (String.length a + String.length b)%nat.
Proof. induction a as [|x a IH]; simpl; [reflexivity | now rewrite IH]. Qed.

Lemma concat_empty_cons (x : string) (xs : list string) :
  String.concat "" (x :: xs) = x ++ String.concat "" xs.
Proof.
  destruct xs as [|y ys]; simpl.
  - now rewrite append_nil_r.
  - reflexivity.
Qed.

End StringFacts.

(** ** Post content *)

Lemma composeContent_append (hashtags : list string) :
  forall text,
    composeContent text hashtags
    = text ++ String.concat "" (map (fun tag => " #" ++ tag) hashtags).
Proof.
  unfold composeContent.
  induction hashtags as [|tag rest IH]; intro text.
  - simpl. now rewrite append_nil_r.
  - cbn [fold_left map]. rewrite IH, concat_empty_cons.
    now rewrite append_assoc.
Qed.

(** C2: the composed content is the text followed by [" #" ++ tag] for
    each hashtag in list order; text ["Hello"] with hashtags [a], [b]
    composes to ["Hello #a #b"]. *)
Theorem composeContent_spec :
  (forall text hashtags,
      composeContent text hashtags = contentSpec text hashtags) /\
  composeContent "Hello" ["a"; "b"] = "Hello #a #b".
Proof.
  split.
  - intros text hashtags. apply composeContent_append.
  - reflexivity.
Qed.

(** ** Image upload *)

(** Symbolic execution of a computation: split on every scrutinee, in the
    goal first and then in the hypotheses. *)
Ltac split_scrutinee :=
  match goal with
  | |- context [match ?x with _ => _ end] =>
      lazymatch x with
      | context [match _ with _ => _ end] => fail
      | _ => destruct x eqn:?
      end
  | H : context [match ?x with _ => _ end] |- _ =>
      lazymatch x with
      | context [match _ with _ => _ end] => fail
      | _ => destruct x eqn:?
      end
  end;
  cbv beta iota in *.

Ltac run_unfold :=
  unfold clientDo, println, slogInfo, slogWarn, slogError, osExit, panic,
    emit, ret, bind in *;
  cbv beta iota in *.

Ltac event_cases H :=
  repeat (destruct H as [H | H]; [try discriminate H |]); try contradiction H.

(** C3: a readable file of more than 1,000,000 bytes makes [uploadImage]
    return the size error, with an empty trace: nothing was logged and no
    request was sent. *)
Theorem uploadImage_rejects_oversized :
  forall w token imagePath imgData,
    osStat w imagePath = StatOk ->
    osReadFile w imagePath = inr imgData ->
    lenBytes imgData > 1000000 ->
    uploadImage w token imagePath
    = (Done (inl ("image file size too large: " ++ itoa (lenBytes imgData)
                  ++ " bytes (1,000,000 bytes maximum)")), []).
Proof.
  intros w token imagePath imgData Hstat Hread Hbig.
  unfold uploadImage. rewrite Hstat, Hread.
  assert (Hgt : (lenBytes imgData >? maxImageSize) = true)
    by (unfold maxImageSize; apply Z.gtb_lt; lia).
  rewrite Hgt. reflexivity.
Qed.

Lemma uploadImage_rejects_oversized_witness :
  let w := Sample.world Sample.noon (Sample.oneFile "big.jpg" Sample.bigImage)
             (Sample.answer 200 (Sample.blobBody "bafkrei")) Sample.emptyForm in
  uploadImage w Sample.token "big.jpg"
  = (Done (inl ("image file size too large: "
                ++ itoa (lenBytes Sample.bigImage)
                ++ " bytes (1,000,000 bytes maximum)")), []).
Proof.
  intro w.
  apply (uploadImage_rejects_oversized w Sample.token "big.jpg" Sample.bigImage).
  - reflexivity.
  - reflexivity.
  - vm_compute. reflexivity.
Defined.

(** [uploadImage] always returns: it neither exits nor panics. *)
Lemma uploadImage_returns w token imagePath :
  exists r, fst (uploadImage w token imagePath) = Done r.
Proof.
  unfold uploadImage. run_unfold.
  repeat split_scrutinee; simpl; eauto.
Qed.

(** The only request [uploadImage] sends goes through the client with the
    30 second timeout and carries the resolved content type. *)
Lemma uploadImage_http w token imagePath timeout req res :
  In (HttpDo timeout req res) (snd (uploadImage w token imagePath)) ->
  timeout = Some 30 /\
  res = httpDo w req /\
  headerGet "Content-Type" (ReqHeader req)
  = Some (if String.eqb (getMimeType w imagePath) ""
          then "image/jpeg" else getMimeType w imagePath).
Proof.
  unfold uploadImage, httpNewRequest. run_unfold.
  repeat split_scrutinee; cbn [snd app In]; intro H; event_cases H;
    injection H as <- <- <-; repeat split; try reflexivity;
    symmetry; assumption.
Qed.

(** C10: an upload answered with status 200 and a body that decodes to an
    empty blob link returns the missing-link error; whatever
    [uploadImage] returns as a blob response has a non-empty link. *)
Theorem uploadImage_blob_link_nonempty :
  (forall w token imagePath blobResp trace,
      uploadImage w token imagePath = (Done (inr blobResp), trace) ->
      Link (Ref (Blob blobResp)) <> "") /\
  (forall w token imagePath timeout req resp respBody blobResp,
      In (HttpDo timeout req (inr resp)) (snd (uploadImage w token imagePath)) ->
      StatusCode resp = 200 ->
      RespBody resp = inr respBody ->
      jsonUnmarshalBlob w respBody = inr blobResp ->
      Link (Ref (Blob blobResp)) = "" ->
      fst (uploadImage w token imagePath)
      = Done (inl ("invalid response: missing blob reference link - body: "
                   ++ respBody))).
Proof.
  split.
  - intros w token imagePath blobResp trace.
    unfold uploadImage, httpNewRequest. run_unfold.
    repeat split_scrutinee; intro H; try discriminate H.
    all: injection H as <- _; apply String.eqb_neq; assumption.
  - intros w token imagePath timeout req resp respBody blobResp.
    unfold uploadImage, httpNewRequest. run_unfold.
    repeat split_scrutinee; cbn [fst snd app In]; intro H; event_cases H.
    all: injection H as <- <- <-; intros Hstatus Hbody Hdecode Hlink.
    all: try (rewrite Hstatus in *; discriminate).
    all: try congruence.
    all: match goal with
         | E : String.eqb _ _ = false |- _ => apply String.eqb_neq in E
         end; congruence.
Qed.

Lemma uploadImage_blob_link_nonempty_witness :
  let ok := Sample.world Sample.noon (Sample.oneFile "a.png" Sample.smallImage)
              (Sample.answer 200 (Sample.blobBody "bafkrei")) Sample.emptyForm in
  let w := Sample.world Sample.noon (Sample.oneFile "a.png" Sample.smallImage)
             (Sample.answer 200 (Sample.blobBody "")) Sample.emptyForm in
  Link (Ref (Blob (Sample.blob "bafkrei"))) <> "" /\
  fst (uploadImage w Sample.token "a.png")
  = Done (inl ("invalid response: missing blob reference link - body: "
               ++ Sample.blobBody "")).
Proof.
  intros ok w. split.
  - eapply (proj1 uploadImage_blob_link_nonempty ok Sample.token "a.png").
    reflexivity.
  - eapply (proj2 uploadImage_blob_link_nonempty w Sample.token "a.png"
              (Some 30) _ (mkResponse 200 (inr (Sample.blobBody "")))
              (Sample.blobBody "") (Sample.blob "")).
    + cbn. right. left. reflexivity.
    + reflexivity.
    + reflexivity.
    + reflexivity.
    + reflexivity.
Defined.

(** ** File extensions and MIME types *)

Section ExtFacts.

Lemma get_append_r (a b : string) (n : nat) :
  get (String.length a + n) (a ++ b) = get n b.
Proof. induction a as [|x a IH]; simpl; [reflexivity | exact IH]. Qed.

Lemma substring_append_r (a b : string) (m : nat) :
  substring (String.length a) m (a ++ b) = substring 0 m b.
Proof. induction a as [|x a IH]; simpl; [reflexivity | exact IH]. Qed.

Lemma substring_whole (b : string) : substring 0 (String.length b) b = b.
Proof. induction b as [|x b IH]; simpl; [reflexivity | now rewrite IH]. Qed.

Lemma get_plainExtension (s : string) :
  plainExtension s = true ->
  forall k, (k < String.length s)%nat ->
  exists c, get k s = Some c /\ isPathSeparator c = false
            /\ Ascii.eqb c "." = false.
Proof.
  induction s as [|x s IH]; simpl; intros Hplain k Hk; [lia |].
  apply andb_prop in Hplain as [Hx Hs].
  apply andb_prop in Hx as [Hsep Hdot].
  destruct k as [|k].
  - exists x. repeat split.
    + now apply negb_true_iff.
    + now apply negb_true_iff.
  - apply IH; [assumption | lia].
Qed.

Lemma extLoop_suffix (stem ext : string) :
  plainExtension ext = true ->
  forall k, (k <= String.length ext)%nat ->
  extLoop (stem ++ String "." ext) (String.length stem + 1 + k)
  = String "." ext.
Proof.
  intros Hplain k. induction k as [|k IH]; intro Hk.
  - replace (String.length stem + 1 + 0)%nat with (S (String.length stem))
      by lia.
    cbn [extLoop].
    replace (String.length stem) with (String.length stem + 0)%nat at 1
      by lia.
    rewrite get_append_r. cbn [get isPathSeparator].
    change (Ascii.eqb "." "/") with false.
    change (Ascii.eqb "." ".") with true. cbv beta iota.
    unfold sliceFrom. rewrite length_append.
    replace (String.length stem + String.length (String "." ext)
             - String.length stem)%nat
      with (String.length (String "." ext)) by lia.
    rewrite substring_append_r. apply substring_whole.
  - replace (String.length stem + 1 + S k)%nat
      with (S (String.length stem + S k)) by lia.
    cbn [extLoop]. rewrite get_append_r. cbn [get].
    destruct (get_plainExtension ext Hplain k) as (c & Hget & Hsep & Hdot);
      [lia |].
    rewrite Hget, Hsep, Hdot.
    replace (String.length stem + S k)%nat
      with (String.length stem + 1 + k)%nat by lia.
    apply IH. lia.
Qed.

(** [filepath.Ext] of a name that ends in a dot and a plain extension. *)
Lemma Ext_suffix (stem ext : string) :
  plainExtension ext = true ->
  Ext (stem ++ String "." ext) = String "." ext.
Proof.
  intro Hplain. unfold Ext. rewrite length_append. cbn [String.length].
  replace (String.length stem + S (String.length ext))%nat
    with (String.length stem + 1 + String.length ext)%nat by lia.
  now apply extLoop_suffix.
Qed.

Lemma lowerByte_letter (c : ascii) :
  (97 <=? nat_of_ascii (lowerByte c))%nat
  && (nat_of_ascii (lowerByte c) <=? 122)%nat = true ->
  (nat_of_ascii c <? 128)%nat = true /\ isPathSeparator c = false
  /\ Ascii.eqb c "." = false.
Proof.
  destruct c as [[] [] [] [] [] [] [] []]; vm_compute; intro H;
    try discriminate H; repeat split.
Qed.

(** A string that lowers to letters is ASCII and a plain extension. *)
Lemma asciiLower_letters (ext : string) :
  lowerLetters (asciiLower ext) = true ->
  isASCII ext = true /\ plainExtension ext = true.
Proof.
  induction ext as [|c ext IH]; cbn [asciiLower lowerLetters isASCII
                                     plainExtension]; intro H.
  - split; reflexivity.
  - apply andb_prop in H as [Hc Hrest].
    destruct (lowerByte_letter c Hc) as (Hascii & Hsep & Hdot).
    destruct (IH Hrest) as [IH1 IH2].
    rewrite Hascii, Hsep, Hdot, IH1, IH2. split; reflexivity.
Qed.

(** The extension [getMimeType] switches on, for a name that ends in a
    dot and letters of either case. *)
Lemma ToLower_Ext_letters (w : World) (stem ext : string) :
  lowerLetters (asciiLower ext) = true ->
  ToLower w (Ext (stem ++ "." ++ ext)) = "." ++ asciiLower ext.
Proof.
  intro H. destruct (asciiLower_letters ext H) as [Hascii Hplain].
  change ("." ++ ext) with (String "." ext).
  rewrite (Ext_suffix stem ext Hplain). unfold ToLower.
  cbn [isASCII]. rewrite Hascii. reflexivity.
Qed.

Lemma getMimeType_unknown (w : World) (filename : string) :
  ~ In (ToLower w (Ext filename)) knownExtensions ->
  getMimeType w filename = "".
Proof.
  unfold getMimeType, knownExtensions. cbn [In]. intro Hnot.
  repeat match goal with
         | |- context [String.eqb ?a ?b] =>
             let E := fresh "E" in
             destruct (String.eqb_spec a b) as [E | E];
             [exfalso; apply Hnot; rewrite E; tauto |]
         end.
  reflexivity.
Qed.

End ExtFacts.

(** C9: for a file whose extension is outside the fixed table,
    [getMimeType] returns the empty string and every request that
    [uploadImage] sends is declared [image/jpeg]; when the file is
    readable and within the size limit, that request is sent, with the
    bytes of the file. *)
Theorem uploadImage_default_content_type :
  forall w token imagePath,
    ~ In (ToLower w (Ext imagePath)) knownExtensions ->
    getMimeType w imagePath = "" /\
    (forall timeout req res,
        In (HttpDo timeout req res) (snd (uploadImage w token imagePath)) ->
        headerGet "Content-Type" (ReqHeader req) = Some "image/jpeg") /\
    (forall imgData,
        osStat w imagePath = StatOk ->
        osReadFile w imagePath = inr imgData ->
        lenBytes imgData <= 1000000 ->
        urlError w (API_URL w ++ "/com.atproto.repo.uploadBlob") = None ->
        exists req,
          In (HttpDo (Some 30) req (httpDo w req))
             (snd (uploadImage w token imagePath)) /\
          headerGet "Content-Type" (ReqHeader req) = Some "image/jpeg" /\
          ReqBody req = BodyBytes imgData).
Proof.
  intros w token imagePath Hunknown.
  pose proof (getMimeType_unknown w imagePath Hunknown) as Hmime.
  split; [exact Hmime | split].
  - intros timeout req res Hin.
    destruct (uploadImage_http w token imagePath timeout req res Hin)
      as (_ & _ & Hct).
    rewrite Hmime in Hct. exact Hct.
  - intros imgData Hstat Hread Hsize Hurl.
    assert (Hle : (lenBytes imgData >? maxImageSize) = false)
      by (unfold maxImageSize; rewrite Z.gtb_ltb; apply Z.ltb_ge; lia).
    unfold uploadImage, httpNewRequest.
    rewrite Hstat, Hread, Hle, Hmime, Hurl. run_unfold.
    exists (setHeader "Content-Type" "image/jpeg"
              (setHeader "Authorization" ("Bearer " ++ AccessJwt token)
                 (mkRequest "POST"
                    (API_URL w ++ "/com.atproto.repo.uploadBlob") []
                    (BodyBytes imgData)))).
    split; [| split; reflexivity].
    change (String.eqb "" "") with true. cbv beta iota.
    repeat split_scrutinee; cbn [snd app In]; right; left; reflexivity.
Qed.

Lemma uploadImage_default_content_type_witness :
  let w := Sample.world Sample.noon (Sample.oneFile "scan.bmp" Sample.smallImage)
             (Sample.answer 200 (Sample.blobBody "bafkrei")) Sample.emptyForm in
  getMimeType w "scan.bmp" = "" /\
  exists req,
    In (HttpDo (Some 30) req (httpDo w req))
       (snd (uploadImage w Sample.token "scan.bmp")) /\
    headerGet "Content-Type" (ReqHeader req) = Some "image/jpeg" /\
    ReqBody req = BodyBytes Sample.smallImage.
Proof.
  intro w.
  assert (Hunknown : ~ In (ToLower w (Ext "scan.bmp")) knownExtensions).
  { vm_compute. intros [H | [H | [H | [H | [H | H]]]]];
      try discriminate H; exact H. }
  destruct (uploadImage_default_content_type w Sample.token "scan.bmp" Hunknown)
    as (Hmime & _ & Hsent).
  split; [exact Hmime |].
  apply (Hsent Sample.smallImage).
  - reflexivity.
  - reflexivity.
  - vm_compute. discriminate.
  - reflexivity.
Defined.


(** C5: a name that ends in [.jpg] or [.jpeg] maps to [image/jpeg], in
    [.png] to [image/png], in [.gif] to [image/gif], in [.webp] to
    [image/webp], whatever the case of the letters; and a file whose
    extension is outside the table is uploaded, not refused: when it is
    readable and within the size limit and the server stores what is sent
    as [image/jpeg], [uploadImage] returns the blob response. *)
Theorem getMimeType_table_and_fallback :
  (forall w stem ext,
      (asciiLower ext = "jpg" \/ asciiLower ext = "jpeg" ->
       getMimeType w (stem ++ "." ++ ext) = "image/jpeg") /\
      (asciiLower ext = "png" ->
       getMimeType w (stem ++ "." ++ ext) = "image/png") /\
      (asciiLower ext = "gif" ->
       getMimeType w (stem ++ "." ++ ext) = "image/gif") /\
      (asciiLower ext = "webp" ->
       getMimeType w (stem ++ "." ++ ext) = "image/webp")) /\
  (forall w token imagePath imgData resp respBody blobResp,
      ~ In (ToLower w (Ext imagePath)) knownExtensions ->
      osStat w imagePath = StatOk ->
      osReadFile w imagePath = inr imgData ->
      lenBytes imgData <= 1000000 ->
      urlError w (API_URL w ++ "/com.atproto.repo.uploadBlob") = None ->
      (forall req,
          headerGet "Content-Type" (ReqHeader req) = Some "image/jpeg" ->
          httpDo w req = inr resp) ->
      StatusCode resp = 200 ->
      RespBody resp = inr respBody ->
      jsonUnmarshalBlob w respBody = inr blobResp ->
      Link (Ref (Blob blobResp)) <> "" ->
      fst (uploadImage w token imagePath) = Done (inr blobResp)).
Proof.
  split.
  - intros w stem ext.
    assert (Hcase : forall t,
               lowerLetters t = true -> asciiLower ext = t ->
               ToLower w (Ext (stem ++ "." ++ ext)) = "." ++ t).
    { intros t Ht Hext. rewrite <- Hext in Ht |- *.
      now apply ToLower_Ext_letters. }
    unfold getMimeType.
    repeat split; [intros [H | H] | intro H ..];
      rewrite (fun Ht => Hcase _ Ht H) by reflexivity; reflexivity.
  - intros w token imagePath imgData resp respBody blobResp
      Hunknown Hstat Hread Hsize Hurl Hserver Hstatus Hbody Hdecode Hlink.
    assert (Hle : (lenBytes imgData >? maxImageSize) = false)
      by (unfold maxImageSize; rewrite Z.gtb_ltb; apply Z.ltb_ge; lia).
    apply String.eqb_neq in Hlink.
    unfold uploadImage, httpNewRequest.
    rewrite Hstat, Hread, Hle, (getMimeType_unknown w imagePath Hunknown), Hurl.
    change (String.eqb "" "") with true. run_unfold.
    rewrite Hserver by reflexivity.
    rewrite Hbody, Hstatus. cbn [Z.eqb Pos.eqb negb].
    rewrite Hdecode, Hlink. reflexivity.
Qed.

Lemma getMimeType_table_and_fallback_witness :
  let w := Sample.world Sample.noon (Sample.oneFile "scan.bmp" Sample.smallImage)
             (Sample.answer 200 (Sample.blobBody "bafkrei")) Sample.emptyForm in
  (getMimeType w "holiday/beach.JPeG" = "image/jpeg" /\
   getMimeType w "logo.PNG" = "image/png" /\
   getMimeType w "cat.Gif" = "image/gif" /\
   getMimeType w "a.b/c.webp" = "image/webp") /\
  fst (uploadImage w Sample.token "scan.bmp") = Done (inr (Sample.blob "bafkrei")).
Proof.
  intro w. split; [split; [| split; [| split]] |].
  - apply (proj1 (proj1 getMimeType_table_and_fallback w "holiday/beach" "JPeG")).
    right. reflexivity.
  - apply (proj1 (proj2 (proj1 getMimeType_table_and_fallback w "logo" "PNG"))).
    reflexivity.
  - apply (proj1 (proj2 (proj2
             (proj1 getMimeType_table_and_fallback w "cat" "Gif")))).
    reflexivity.
  - apply (proj2 (proj2 (proj2
             (proj1 getMimeType_table_and_fallback w "a.b/c" "webp")))).
    reflexivity.
  - apply (proj2 getMimeType_table_and_fallback w Sample.token "scan.bmp"
             Sample.smallImage
             (mkResponse 200 (inr (Sample.blobBody "bafkrei")))
             (Sample.blobBody "bafkrei")
             (Sample.blob "bafkrei")).
    + vm_compute. intros [H | [H | [H | [H | [H | H]]]]];
        try discriminate H; exact H.
    + reflexivity.
    + reflexivity.
    + vm_compute. discriminate.
    + reflexivity.
    + intros req _. reflexivity.
    + reflexivity.
    + reflexivity.
    + reflexivity.
    + discriminate.
Defined.

(** The events of [uploadImage]: its three log lines and its request. *)
Lemma uploadImage_events w token imagePath e :
  In e (snd (uploadImage w token imagePath)) ->
  (exists attrs, e = Slog LevelInfo "Uploading image" attrs) \/
  (exists attrs, e = Slog LevelError "API error response" attrs) \/
  (exists attrs, e = Slog LevelInfo "Image uploaded successfully" attrs) \/
  (exists req res, e = HttpDo (Some 30) req res).
Proof.
  unfold uploadImage, httpNewRequest. run_unfold.
  repeat split_scrutinee; cbn [snd app In]; intro H.
  all: repeat (destruct H as [H | H]; [subst e; eauto 6 |]); contradiction H.
Qed.

(** The success line is logged exactly by the uploads that return a blob
    response, and such uploads log nothing at error level. *)
Lemma uploadImage_success_logged w token imagePath :
  (forall attrs,
      In (Slog LevelInfo "Image uploaded successfully" attrs)
         (snd (uploadImage w token imagePath)) ->
      exists blobResp, fst (uploadImage w token imagePath) = Done (inr blobResp))
  /\
  (forall blobResp,
      fst (uploadImage w token imagePath) = Done (inr blobResp) ->
      forall msg attrs,
        ~ In (Slog LevelError msg attrs) (snd (uploadImage w token imagePath))).
Proof.
  unfold uploadImage, httpNewRequest. run_unfold. split.
  - intro attrs.
    repeat split_scrutinee; cbn [fst snd app In]; intro H; event_cases H;
      eauto.
  - intro blobResp.
    repeat split_scrutinee; cbn [fst snd app In]; intros Hr msg attrs H;
      try discriminate Hr; event_cases H.
Qed.

(** An upload answered with status 200 and a body that does not decode
    returns the decode error. *)
Lemma uploadImage_decode_failure w token imagePath timeout req resp respBody e :
  In (HttpDo timeout req (inr resp)) (snd (uploadImage w token imagePath)) ->
  StatusCode resp = 200 ->
  RespBody resp = inr respBody ->
  jsonUnmarshalBlob w respBody = inl e ->
  fst (uploadImage w token imagePath)
  = Done (inl ("failed to decode response: " ++ e ++ " - body: " ++ respBody)).
Proof.
  unfold uploadImage, httpNewRequest. run_unfold.
  repeat split_scrutinee; cbn [fst snd app In]; intro H; event_cases H.
  all: injection H as <- <- <-; intros Hstatus Hbody Hdecode.
  all: try (rewrite Hstatus in *; discriminate).
  all: congruence.
Qed.

(** ** Record creation *)

Ltac in_cases H :=
  repeat first
    [ contradiction H
    | discriminate H
    | apply in_app_or in H
    | destruct H as [H | H] ].

Lemma uploadImage_no_plain_client w token imagePath req res :
  ~ In (HttpDo None req res) (snd (uploadImage w token imagePath)).
Proof.
  intro H. apply uploadImage_http in H as [H _]. discriminate H.
Qed.

(** Brings the facts about the upload of [imagePath] into the context and
    names its result [r] and its trace [tu]. *)
Ltac with_upload w token imagePath :=
  let Hret := fresh "Hret" in
  pose proof (uploadImage_returns w token imagePath) as Hret;
  pose proof (uploadImage_no_plain_client w token imagePath) as Hplain;
  pose proof (uploadImage_events w token imagePath) as Hev;
  pose proof (uploadImage_success_logged w token imagePath) as [Hlog Hquiet];
  pose proof (uploadImage_decode_failure w token imagePath) as Hdec;
  destruct (uploadImage w token imagePath) as [o tu]; cbn [fst snd] in *;
  destruct Hret as [r Hr]; subst o.

Ltac run_CreatePost w token imagePath :=
  unfold CreatePost, getCurrentTimeNow, getImageDimensions, httpNewRequest;
  with_upload w token imagePath;
  run_unfold; repeat split_scrutinee; cbn [fst snd app In].

(** [CreatePost] panics when the timestamp cannot be cut, before it does
    anything else; otherwise it returns. *)
Lemma CreatePost_outcome w token content imagePath :
  (getCurrentTime (now w) = None /\
   CreatePost w token content imagePath = (Panic, [])) \/
  (exists createdAt failed,
      getCurrentTime (now w) = Some createdAt /\
      fst (CreatePost w token content imagePath) = Done failed).
Proof.
  run_CreatePost w token imagePath; eauto 8.
Qed.

(** What the answer to the record-creation request decides. *)
Lemma CreatePost_sent w token content imagePath req resp :
  In (HttpDo None req (inr resp)) (snd (CreatePost w token content imagePath)) ->
  (StatusCode resp <> 200 ->
   fst (CreatePost w token content imagePath)
   = Done (Some ("unexpected status code: " ++ itoa (StatusCode resp)))) /\
  (StatusCode resp = 200 ->
   fst (CreatePost w token content imagePath) = Done None /\
   (decodeBody (jsonDecodePost w) resp = None ->
    forall attrs,
      ~ In (Slog LevelInfo "Post created" attrs)
           (snd (CreatePost w token content imagePath)))).
Proof.
  run_CreatePost w token imagePath; intro H; in_cases H.
  all: try (apply Hplain in H; contradiction H).
  all: injection H as <- <-.
  all: match goal with
       | E : negb (StatusCode _ =? 200) = true |- _ =>
           apply negb_true_iff, Z.eqb_neq in E
       | E : negb (StatusCode _ =? 200) = false |- _ =>
           apply negb_false_iff, Z.eqb_eq in E
       end.
  all: split; intro Hstatus; try contradiction; try reflexivity.
  all: split; [reflexivity |]; intros Hnone attrs Hin; in_cases Hin.
  all: try congruence.
  all: apply Hev in Hin;
    destruct Hin as [[? Hin] | [[? Hin] | [[? Hin] | [? [? Hin]]]]];
    discriminate Hin.
Qed.

(** The client without a timeout carries the record-creation request and
    nothing else. *)
Lemma CreatePost_plain_client w token content imagePath req res :
  In (HttpDo None req res) (snd (CreatePost w token content imagePath)) ->
  Method req = "POST" /\
  URL req = API_URL w ++ "/com.atproto.repo.createRecord" /\
  res = httpDo w req.
Proof.
  run_CreatePost w token imagePath; intro H; in_cases H.
  all: try (apply Hplain in H; contradiction H).
  all: injection H as <- <-; repeat split; symmetry; assumption.
Qed.

(** An upload answered with an undecodable body makes [CreatePost] return
    the wrapped decode error. *)
Lemma CreatePost_upload_decode_failure
  w token content imagePath req resp respBody e :
  In (HttpDo (Some 30) req (inr resp))
     (snd (CreatePost w token content imagePath)) ->
  StatusCode resp = 200 ->
  RespBody resp = inr respBody ->
  jsonUnmarshalBlob w respBody = inl e ->
  fst (CreatePost w token content imagePath)
  = Done (Some ("failed to upload image: " ++ "failed to decode response: "
                ++ e ++ " - body: " ++ respBody)).
Proof.
  run_CreatePost w token imagePath; intros H Hstatus Hbody Hdecode;
    in_cases H.
  all: specialize (Hdec _ _ _ _ _ H Hstatus Hbody Hdecode).
  all: congruence.
Qed.

(** The lines [CreatePost] prints, and the silence of a successful call
    at error level. *)
Lemma CreatePost_output w token content imagePath :
  (forall line,
      In (Println line) (snd (CreatePost w token content imagePath)) ->
      line = "Uploading image: " ++ imagePath \/
      line = "Warning: Could not determine image dimensions, aspect ratio won't be specified") /\
  (fst (CreatePost w token content imagePath) = Done None ->
   forall msg attrs,
     ~ In (Slog LevelError msg attrs)
          (snd (CreatePost w token content imagePath))).
Proof.
  split.
  - intro line.
    run_CreatePost w token imagePath; intro H; in_cases H.
    all: try (injection H as <-; auto).
    all: apply Hev in H;
      destruct H as [[? H] | [[? H] | [[? H] | [? [? H]]]]]; discriminate H.
  - run_CreatePost w token imagePath; intros Hnil msg attrs H;
      try discriminate Hnil; in_cases H.
    all: revert H; eapply Hquiet; f_equal; eassumption.
Qed.

(** ** The command *)

Lemma runCreate_after_inputs w pre text hashtags imageFile :
  let rest :=
    token <- getToken w ;;
    match token with
    | inl e =>
        slogError "Failed to get authentication token" [("error", LError e)] ;;;
        println msgAuthFailed
    | inr token =>
        failed <- CreatePost w token (composeContent text hashtags) imageFile ;;
        match failed with
        | Some e =>
            slogError "Failed to create post" [("error", LError e)] ;;;
            println msgPostFailed
        | None => println msgPostCreated
        end
    end in
  forall text0 hashtags0 imageFile0,
    Inputs w text0 hashtags0 imageFile0 pre text hashtags imageFile ->
    RunCase w text0 hashtags0 imageFile0
      (let (r, t) := rest in (r, (pre ++ t)%list)).
Proof.
  intros rest text0 hashtags0 imageFile0 Hin. subst rest.
  unfold getToken. run_unfold.
  destruct (GetToken w) as [e | token] eqn:Htoken; cbn [fst snd app].
  - eapply AuthFailed; eassumption.
  - destruct (CreatePost_outcome w token (composeContent text hashtags) imageFile)
      as [[Hnow Hpanic] | (createdAt & failed & Hnow & Hdone)].
    + rewrite Hpanic. cbn [fst snd app].
      eapply PostPanicked; eassumption.
    + destruct (CreatePost w token (composeContent text hashtags) imageFile)
        as [o posted] eqn:Hpost.
      cbn [fst] in Hdone. subst o. destruct failed as [e |]; cbn [fst snd app].
      * eapply PostFailed; eassumption.
      * eapply PostCreated; eassumption.
Qed.

(** Every run of the command has one of the five shapes. *)
Lemma runCreate_cases w text hashtags imageFile :
  RunCase w text hashtags imageFile (runCreate w text hashtags imageFile).
Proof.
  unfold runCreate, runForm.
  destruct (String.eqb text "" && String.eqb imageFile "") eqn:Hempty.
  - apply andb_prop in Hempty as [Ht Hi].
    apply String.eqb_eq in Ht, Hi. subst text imageFile.
    destruct (formRun w) as [e | [[text' hashtagInput] imageFile']] eqn:Hform.
    + run_unfold. cbn [app]. now apply PromptFailed.
    + pose proof (FromForm w "" hashtags "" text' hashtagInput imageFile'
                    eq_refl eq_refl Hform) as Hin.
      rewrite Hform in Hin.
      pose proof (runCreate_after_inputs w _ _ _ _ _ _ _ Hin) as Hcase.
      unfold getToken in *. run_unfold.
      destruct (negb (String.eqb hashtagInput "")); cbv beta iota;
        cbn [app] in *; exact Hcase.
  - exact (runCreate_after_inputs w _ _ _ _ _ _ _
             (FromFlags w text hashtags imageFile Hempty)).
Qed.

Lemma Inputs_trace w text hashtags imageFile pre text' hashtags' imageFile' :
  Inputs w text hashtags imageFile pre text' hashtags' imageFile' ->
  forall e, In e pre -> exists filled, e = Prompt filled.
Proof.
  intros [Hflags | t h i _ _ _] e H; in_cases H. eauto.
Qed.

Ltac prompt_event Hinputs H :=
  let filled := fresh "filled" in
  destruct (Inputs_trace _ _ _ _ _ _ _ _ Hinputs _ H) as [filled ?];
  discriminate.

Ltac not_printed H :=
  match type of H with
  | In (Println _) ?posted =>
      match goal with
      | Hpost : CreatePost ?w ?token ?content ?path = (_, posted) |- _ =>
          let Hout := fresh "Hout" in
          pose proof (proj1 (CreatePost_output w token content path)) as Hout;
          rewrite Hpost in Hout; cbn [snd] in Hout;
          destruct (Hout _ H) as [Hout' | Hout'];
          cbn in Hout'; discriminate Hout'
      end
  end.

(** A run in which some request was sent, where every call of
    [CreatePost] that sends such a request returns the error [e], reports
    the failure and does not announce a post. *)
Lemma run_reports_post_failure w text hashtags imageFile ev e :
  isHttp ev = true ->
  In ev (snd (runCreate w text hashtags imageFile)) ->
  (forall token content imagePath,
      In ev (snd (CreatePost w token content imagePath)) ->
      fst (CreatePost w token content imagePath) = Done (Some e)) ->
  fst (runCreate w text hashtags imageFile) = Done tt /\
  In (Slog LevelError "Failed to create post" [("error", LError e)])
     (snd (runCreate w text hashtags imageFile)) /\
  In (Println msgPostFailed) (snd (runCreate w text hashtags imageFile)) /\
  reportsFailure (snd (runCreate w text hashtags imageFile)) /\
  ~ In (Println msgPostCreated) (snd (runCreate w text hashtags imageFile)).
Proof.
  intros Hhttp Hin Hfail.
  destruct (runCreate_cases w text hashtags imageFile)
    as [e0 _ _ _
       | pre text' hashtags' imageFile' e0 Hinputs _
       | pre text' hashtags' imageFile' token Hinputs _ _ _
       | pre text' hashtags' imageFile' token e0 posted Hinputs _ Hpost
       | pre text' hashtags' imageFile' token posted Hinputs _ Hpost];
    cbn [fst snd] in *.
  - in_cases Hin; subst ev; discriminate Hhttp.
  - in_cases Hin; try (subst ev; discriminate Hhttp).
    destruct (Inputs_trace _ _ _ _ _ _ _ _ Hinputs _ Hin) as [filled ->].
    discriminate Hhttp.
  - in_cases Hin; try (subst ev; discriminate Hhttp).
    destruct (Inputs_trace _ _ _ _ _ _ _ _ Hinputs _ Hin) as [filled ->].
    discriminate Hhttp.
  - assert (Hposted : In ev posted).
    { in_cases Hin; try (subst ev; discriminate Hhttp); [| assumption].
      destruct (Inputs_trace _ _ _ _ _ _ _ _ Hinputs _ Hin) as [filled ->].
      discriminate Hhttp. }
    specialize (Hfail token (composeContent text' hashtags') imageFile').
    rewrite Hpost in Hfail. cbn [fst snd] in Hfail.
    specialize (Hfail Hposted). injection Hfail as ->.
    assert (Hlog : In (Slog LevelError "Failed to create post"
                         [("error", LError e)])
                      (pre ++ [Authenticate (inr token)] ++ posted ++
                       [Slog LevelError "Failed to create post"
                          [("error", LError e)];
                        Println msgPostFailed])).
    { apply in_or_app; right. apply in_or_app; right.
      apply in_or_app; right. left. reflexivity. }
    assert (Hmsg : In (Println msgPostFailed)
                      (pre ++ [Authenticate (inr token)] ++ posted ++
                       [Slog LevelError "Failed to create post"
                          [("error", LError e)];
                        Println msgPostFailed])).
    { apply in_or_app; right. apply in_or_app; right.
      apply in_or_app; right. right. left. reflexivity. }
    repeat split; try assumption.
    + eauto.
    + exists "Failed to create post". exact Hmsg.
    + intro H. in_cases H.
      * prompt_event Hinputs H.
      * not_printed H.
  - assert (Hposted : In ev posted).
    { in_cases Hin; try (subst ev; discriminate Hhttp); [| assumption].
      destruct (Inputs_trace _ _ _ _ _ _ _ _ Hinputs _ Hin) as [filled ->].
      discriminate Hhttp. }
    specialize (Hfail token (composeContent text' hashtags') imageFile').
    rewrite Hpost in Hfail. cbn [fst snd] in Hfail.
    specialize (Hfail Hposted). discriminate Hfail.
Qed.

(** A run in which some request was sent, where every call of
    [CreatePost] that sends such a request returns [nil]: the input
    stage, the authentication, the successful call and the announcement. *)
Lemma run_success_shape w text hashtags imageFile ev :
  isHttp ev = true ->
  In ev (snd (runCreate w text hashtags imageFile)) ->
  (forall token content imagePath,
      In ev (snd (CreatePost w token content imagePath)) ->
      fst (CreatePost w token content imagePath) = Done None) ->
  exists pre token content imagePath posted,
    runCreate w text hashtags imageFile
    = (Done tt,
       (pre ++ [Authenticate (inr token)] ++ posted
            ++ [Println msgPostCreated])%list) /\
    (forall e, In e pre -> exists filled, e = Prompt filled) /\
    CreatePost w token content imagePath = (Done None, posted) /\
    In ev posted.
Proof.
  intros Hhttp Hin Hok.
  destruct (runCreate_cases w text hashtags imageFile)
    as [e0 _ _ _
       | pre text' hashtags' imageFile' e0 Hinputs _
       | pre text' hashtags' imageFile' token Hinputs _ _ _
       | pre text' hashtags' imageFile' token e0 posted Hinputs _ Hpost
       | pre text' hashtags' imageFile' token posted Hinputs Htoken Hpost];
    cbn [fst snd] in *.
  - in_cases Hin; subst ev; discriminate Hhttp.
  - in_cases Hin; try (subst ev; discriminate Hhttp).
    destruct (Inputs_trace _ _ _ _ _ _ _ _ Hinputs _ Hin) as [filled ->].
    discriminate Hhttp.
  - in_cases Hin; try (subst ev; discriminate Hhttp).
    destruct (Inputs_trace _ _ _ _ _ _ _ _ Hinputs _ Hin) as [filled ->].
    discriminate Hhttp.
  - assert (Hposted : In ev posted).
    { in_cases Hin; try (subst ev; discriminate Hhttp); [| assumption].
      destruct (Inputs_trace _ _ _ _ _ _ _ _ Hinputs _ Hin) as [filled ->].
      discriminate Hhttp. }
    specialize (Hok token (composeContent text' hashtags') imageFile').
    rewrite Hpost in Hok. cbn [fst snd] in Hok.
    specialize (Hok Hposted). discriminate Hok.
  - exists pre, token, (composeContent text' hashtags'), imageFile', posted.
    split; [reflexivity | split; [| split; [assumption |]]].
    + exact (Inputs_trace _ _ _ _ _ _ _ _ Hinputs).
    + in_cases Hin; try (subst ev; discriminate Hhttp); [| assumption].
      destruct (Inputs_trace _ _ _ _ _ _ _ _ Hinputs _ Hin) as [filled ->].
      discriminate Hhttp.
Qed.

(** C6: when the record-creation request is answered with a status other
    than 200 after a successful upload, [CreatePost] returns the status
    error, and the command logs it, prints the failure message and does
    not print the success message. *)
Theorem failed_record_creation_is_reported :
  (forall w token content imagePath blobResp uploaded req resp,
      uploadImage w token imagePath = (Done (inr blobResp), uploaded) ->
      In (HttpDo None req (inr resp))
         (snd (CreatePost w token content imagePath)) ->
      StatusCode resp <> 200 ->
      fst (CreatePost w token content imagePath)
      = Done (Some ("unexpected status code: " ++ itoa (StatusCode resp)))) /\
  (forall w text hashtags imageFile attrs req resp,
      In (Slog LevelInfo "Image uploaded successfully" attrs)
         (snd (runCreate w text hashtags imageFile)) ->
      In (HttpDo None req (inr resp))
         (snd (runCreate w text hashtags imageFile)) ->
      StatusCode resp <> 200 ->
      fst (runCreate w text hashtags imageFile) = Done tt /\
      In (Slog LevelError "Failed to create post"
            [("error",
              LError ("unexpected status code: " ++ itoa (StatusCode resp)))])
         (snd (runCreate w text hashtags imageFile)) /\
      In (Println msgPostFailed) (snd (runCreate w text hashtags imageFile)) /\
      reportsFailure (snd (runCreate w text hashtags imageFile)) /\
      ~ In (Println msgPostCreated)
           (snd (runCreate w text hashtags imageFile))).
Proof.
  split.
  - intros w token content imagePath blobResp uploaded req resp _ Hsent Hstatus.
    exact (proj1 (CreatePost_sent w token content imagePath req resp Hsent)
             Hstatus).
  - intros w text hashtags imageFile attrs req resp _ Hsent Hstatus.
    apply (run_reports_post_failure w text hashtags imageFile
             (HttpDo None req (inr resp))); [reflexivity | assumption |].
    intros token content imagePath Hin.
    exact (proj1 (CreatePost_sent w token content imagePath req resp Hin)
             Hstatus).
Qed.

Lemma failed_record_creation_is_reported_witness :
  let w := Sample.world Sample.noon (Sample.oneFile "cat.gif" Sample.smallImage)
             Sample.uploadOnly Sample.emptyForm in
  fst (CreatePost w Sample.token "Hello" "cat.gif")
  = Done (Some "unexpected status code: 500") /\
  (fst (runCreate w "Hello" [] "cat.gif") = Done tt /\
   In (Slog LevelError "Failed to create post"
         [("error", LError "unexpected status code: 500")])
      (snd (runCreate w "Hello" [] "cat.gif")) /\
   In (Println msgPostFailed) (snd (runCreate w "Hello" [] "cat.gif")) /\
   reportsFailure (snd (runCreate w "Hello" [] "cat.gif")) /\
   ~ In (Println msgPostCreated) (snd (runCreate w "Hello" [] "cat.gif"))).
Proof.
  intro w.
  pose (resp := mkResponse 500 (inr Sample.errorBody)).
  split.
  - eapply (proj1 failed_record_creation_is_reported w Sample.token "Hello"
              "cat.gif" (Sample.blob "bafkrei") _ _ resp).
    + reflexivity.
    + lazy. do 6 right. left. reflexivity.
    + vm_compute. discriminate.
  - eapply (proj2 failed_record_creation_is_reported w "Hello" [] "cat.gif"
              _ _ resp).
    + lazy. do 4 right. left. reflexivity.
    + lazy. do 7 right. left. reflexivity.
    + vm_compute. discriminate.
Defined.

(** ** Decode failures *)

(** Against C7 as stated: the record-creation request answered with
    status 200 and a body that does not decode; the run logs nothing at
    error level, prints no error message and ends with the success
    message. *)
Lemma undecodable_record_response_passes_for_success :
  let w := Sample.world Sample.noon Sample.noFiles (Sample.answer 200 "<html>") Sample.emptyForm in
  let run := runCreate w "Hello" [] "" in
  (exists req resp,
      In (HttpDo None req (inr resp)) (snd run) /\
      StatusCode resp = 200 /\
      decodeBody (jsonDecodePost w) resp = None) /\
  fst run = Done tt /\
  In (Println msgPostCreated) (snd run) /\
  ~ reportsFailure (snd run).
Proof.
  intros w run. split; [| split; [| split]].
  - eexists. exists (mkResponse 200 (inr "<html>")).
    split; [| split; reflexivity].
    vm_compute. right. left. reflexivity.
  - reflexivity.
  - vm_compute. do 2 right. left. reflexivity.
  - intros [(msg & attrs & H) _]. vm_compute in H.
    in_cases H.
Qed.

(** C7, amended: a body of the upload response that does not decode is
    reported (error log line, failure message, no success message); a
    body of the record-creation response that does not decode under status
    200 is ignored: [CreatePost] returns [nil], no line is logged about
    the post or at error level, and the run prints the success message. *)
Theorem decode_failure_reported_for_upload_only :
  (forall w text hashtags imageFile req resp respBody e,
      In (HttpDo (Some 30) req (inr resp))
         (snd (runCreate w text hashtags imageFile)) ->
      StatusCode resp = 200 ->
      RespBody resp = inr respBody ->
      jsonUnmarshalBlob w respBody = inl e ->
      fst (runCreate w text hashtags imageFile) = Done tt /\
      In (Slog LevelError "Failed to create post"
            [("error",
              LError ("failed to upload image: failed to decode response: "
                      ++ e ++ " - body: " ++ respBody))])
         (snd (runCreate w text hashtags imageFile)) /\
      In (Println msgPostFailed) (snd (runCreate w text hashtags imageFile)) /\
      reportsFailure (snd (runCreate w text hashtags imageFile)) /\
      ~ In (Println msgPostCreated)
           (snd (runCreate w text hashtags imageFile))) /\
  (forall w text hashtags imageFile req resp,
      In (HttpDo None req (inr resp))
         (snd (runCreate w text hashtags imageFile)) ->
      StatusCode resp = 200 ->
      decodeBody (jsonDecodePost w) resp = None ->
      fst (runCreate w text hashtags imageFile) = Done tt /\
      (forall msg attrs,
          ~ In (Slog LevelError msg attrs)
               (snd (runCreate w text hashtags imageFile))) /\
      (forall attrs,
          ~ In (Slog LevelInfo "Post created" attrs)
               (snd (runCreate w text hashtags imageFile))) /\
      ~ reportsFailure (snd (runCreate w text hashtags imageFile)) /\
      In (Println msgPostCreated) (snd (runCreate w text hashtags imageFile))).
Proof.
  split.
  - intros w text hashtags imageFile req resp respBody e
      Hsent Hstatus Hbody Hdecode.
    apply (run_reports_post_failure w text hashtags imageFile
             (HttpDo (Some 30) req (inr resp))); [reflexivity | assumption |].
    intros token content imagePath Hin.
    exact (CreatePost_upload_decode_failure w token content imagePath
             req resp respBody e Hin Hstatus Hbody Hdecode).
  - intros w text hashtags imageFile req resp Hsent Hstatus Hdecode.
    destruct (run_success_shape w text hashtags imageFile
                (HttpDo None req (inr resp)) eq_refl Hsent)
      as (pre & token & content & imagePath & posted
          & Hrun & Hpre & Hpost & Hposted).
    { intros token content imagePath Hin.
      exact (proj1 (proj2 (CreatePost_sent w token content imagePath
                             req resp Hin) Hstatus)). }
    rewrite Hrun. cbn [fst snd].
    assert (Hquiet : forall msg attrs,
               ~ In (Slog LevelError msg attrs)
                    (pre ++ [Authenticate (inr token)] ++ posted
                         ++ [Println msgPostCreated])).
    { intros msg attrs H. in_cases H.
      - destruct (Hpre _ H) as [filled Hfilled]. discriminate Hfilled.
      - pose proof (proj2 (CreatePost_output w token content imagePath))
          as Hout.
        rewrite Hpost in Hout. cbn [fst snd] in Hout.
        exact (Hout eq_refl msg attrs H). }
    split; [reflexivity | split; [exact Hquiet | split; [| split]]].
    + intros attrs H. in_cases H.
      * destruct (Hpre _ H) as [filled Hfilled]. discriminate Hfilled.
      * pose proof (CreatePost_sent w token content imagePath req resp) as Hs.
        rewrite Hpost in Hs. cbn [fst snd] in Hs.
        exact (proj2 (proj2 (Hs Hposted) Hstatus) Hdecode attrs H).
    + intros [(msg & attrs & H) _]. exact (Hquiet msg attrs H).
    + apply in_or_app; right. apply in_or_app; right.
      apply in_or_app; right. left. reflexivity.
Qed.

Lemma decode_failure_reported_for_upload_only_witness :
  let wu := Sample.world Sample.noon
              (Sample.oneFile "cat.gif" Sample.smallImage)
              (Sample.answer 200 "<html>") Sample.emptyForm in
  let wr := Sample.world Sample.noon Sample.noFiles
              (Sample.answer 200 "<html>") Sample.emptyForm in
  reportsFailure (snd (runCreate wu "Hello" [] "cat.gif")) /\
  ~ reportsFailure (snd (runCreate wr "Hello" [] "")).
Proof.
  intros wu wr.
  pose (resp := mkResponse 200 (inr "<html>")).
  split.
  - assert (Hsent : exists req,
               In (HttpDo (Some 30) req (inr resp))
                  (snd (runCreate wu "Hello" [] "cat.gif"))).
    { eexists. lazy. do 3 right. left. reflexivity. }
    destruct Hsent as [upload Hsent].
    destruct (proj1 decode_failure_reported_for_upload_only wu "Hello" []
                "cat.gif" upload resp "<html>"
                "invalid character '<' looking for beginning of value"
                Hsent eq_refl eq_refl eq_refl) as (_ & _ & _ & Hreported & _).
    exact Hreported.
  - assert (Hsent : exists req,
               In (HttpDo None req (inr resp))
                  (snd (runCreate wr "Hello" [] ""))).
    { eexists. lazy. right. left. reflexivity. }
    destruct Hsent as [create Hsent].
    destruct (proj2 decode_failure_reported_for_upload_only wr "Hello" [] ""
                create resp Hsent eq_refl eq_refl) as (_ & _ & _ & Hsilent & _).
    exact Hsilent.
Defined.

(** ** Missing input *)

(** The flags-only revision refuses a post without text and image: it
    prints the missing-input message and does nothing else. *)
Lemma FlagsOnly_rejects_missing_input w createdAt hashtags :
  FlagsOnly.runCreate w createdAt "" hashtags ""
  = (Done tt, [Println msgMissingInput]).
Proof. reflexivity. Qed.

(** A failing form stops the command before any network call. *)
Lemma prompt_failure_stops w hashtags e :
  formRun w = inl e ->
  runCreate w "" hashtags ""
  = (Exit 1,
     [Prompt (inl e);
      Slog LevelError "Failed to get user input" [("error", LError e)]]).
Proof.
  intro Hform. unfold runCreate, runForm. cbn [String.eqb andb].
  rewrite Hform. reflexivity.
Qed.

(** A form submitted empty does not stop the command: it goes on to
    authenticate, with the content made of the hashtags alone. *)
Lemma empty_form_authenticates w hashtags :
  formRun w = inr ("", "", "") ->
  In (Authenticate (GetToken w)) (snd (runCreate w "" hashtags "")) /\
  existsb isNetwork (snd (runCreate w "" hashtags "")) = true.
Proof.
  intro Hform. unfold runCreate, runForm, getToken.
  cbn [String.eqb andb]. rewrite Hform. run_unfold.
  cbn [String.eqb negb].
  destruct (GetToken w) as [e | token]; cbn [snd app].
  - split; [right; left; reflexivity | reflexivity].
  - destruct (CreatePost w token (composeContent "" hashtags) "")
      as [[failed | code |] posted]; [destruct failed |..];
      cbn [snd app]; (split; [right; left; reflexivity | reflexivity]).
Qed.

(** C1, on the code: with no flag and a form submitted empty, the command
    authenticates, sends the record and announces the post; no
    missing-input message is printed.  The flags-only revision of the
    same command prints it and stops. *)
Theorem empty_form_is_posted :
  let w := Sample.world Sample.noon Sample.noFiles
             (Sample.answer 200 Sample.createdBody) Sample.emptyForm in
  runCreate w "" [] ""
  = (Done tt,
     [Prompt (inr ("", "", ""));
      Authenticate (inr Sample.token);
      HttpDo None
        (mkRequest "POST"
           "https://bsky.social/xrpc/com.atproto.repo.createRecord"
           [("Authorization", "Bearer jwt");
            ("Content-Type", "application/json")]
           (BodyText
              (Sample.render
                 (JObject
                    [("collection", JString "app.bsky.feed.post");
                     ("repo", JString "did:plc:alice");
                     ("record",
                      JObject
                        [("$type", JString "app.bsky.feed.post");
                         ("text", JString "");
                         ("createdAt",
                          JString "2025-01-02T12:00:00.678Z")])]))))
        (inr (mkResponse 200 (inr Sample.createdBody)));
      Slog LevelInfo "Post created"
        [("uri", LString "at://did:plc:alice/app.bsky.feed.post/3kabc");
         ("cid", LString "bafyreib")];
      Println msgPostCreated]) /\
  FlagsOnly.runCreate w "2025-01-02T13:00:00+01:00" "" [] ""
  = (Done tt, [Println msgMissingInput]).
Proof.
  split; vm_compute; reflexivity.
Qed.

(** ** Exit status *)

(** The exit status of a run of the command: 1 after a failing form, 2
    after the panic of the timestamp, 0 otherwise. *)
Lemma runCreate_exit_status w text hashtags imageFile :
  (exitStatus (runCreate w text hashtags imageFile) = 1 /\
   text = "" /\ imageFile = "" /\ exists e, formRun w = inl e) \/
  (exitStatus (runCreate w text hashtags imageFile) = 2 /\
   getCurrentTime (now w) = None /\ exists token, GetToken w = inr token) \/
  (exitStatus (runCreate w text hashtags imageFile) = 0 /\
   fst (runCreate w text hashtags imageFile) = Done tt).
Proof.
  destruct (runCreate_cases w text hashtags imageFile); unfold exitStatus;
    cbn [fst]; eauto 10.
Qed.

(** Apart from the panic of the timestamp, the exit status is non-zero
    exactly when the command line does not parse or the form fails. *)
Lemma exit_status_when_timestamp_cuts w args createdAt :
  getCurrentTime (now w) = Some createdAt ->
  exitStatus (Execute w args) <> 0 <->
  (exists e, args = ParseFailure e) \/
  (exists hashtags e, args = PostsCreate "" hashtags "" /\ formRun w = inl e).
Proof.
  intro Hnow. split.
  - destruct args as [e | | text hashtags imageFile]; cbn [Execute].
    + eauto.
    + intro H. exfalso. apply H. reflexivity.
    + intro H.
      destruct (runCreate_exit_status w text hashtags imageFile)
        as [(_ & -> & -> & e & Hform) | [(_ & Hnone & _) | (Hzero & _)]].
      * right. eauto.
      * congruence.
      * contradiction.
  - intros [[e ->] | (hashtags & e & -> & Hform)]; cbn [Execute].
    + discriminate.
    + rewrite (prompt_failure_stops w hashtags e Hform). discriminate.
Qed.

(** Failures of authentication and of post creation are reported and
    leave the exit status at zero. *)
Lemma reported_failures_exit_zero w text hashtags imageFile :
  In (Println msgAuthFailed) (snd (runCreate w text hashtags imageFile)) \/
  In (Println msgPostFailed) (snd (runCreate w text hashtags imageFile)) ->
  exitStatus (Execute w (PostsCreate text hashtags imageFile)) = 0 /\
  reportsFailure (snd (runCreate w text hashtags imageFile)).
Proof.
  cbn [Execute]. unfold exitStatus, reportsFailure.
  destruct (runCreate_cases w text hashtags imageFile)
    as [e0 _ _ _
       | pre text' hashtags' imageFile' e0 Hinputs _
       | pre text' hashtags' imageFile' token Hinputs _ _ _
       | pre text' hashtags' imageFile' token e0 posted Hinputs _ Hpost
       | pre text' hashtags' imageFile' token posted Hinputs Htoken Hpost];
    cbn [fst snd]; intros [H | H].
  1-2: in_cases H.
  1-2: split; [reflexivity | split].
  1, 3: exists "Failed to get authentication token", [("error", LError e0)];
    apply in_or_app; right; right; left; reflexivity.
  1-2: exists "Failed to authenticate with Bluesky";
    apply in_or_app; right; right; right; left; reflexivity.
  1-2: in_cases H; prompt_event Hinputs H.
  1-2: split; [reflexivity | split].
  1, 3: exists "Failed to create post", [("error", LError e0)];
    apply in_or_app; right; apply in_or_app; right; apply in_or_app; right;
    left; reflexivity.
  1-2: exists "Failed to create post";
    apply in_or_app; right; apply in_or_app; right; apply in_or_app; right;
    right; left; reflexivity.
  1-2: in_cases H; [prompt_event Hinputs H | not_printed H].
Qed.

(** C8, on the code: a well-formed command line, no prompt, a successful
    authentication, and a clock that reads a whole second: the timestamp
    panics and the process exits with status 2. *)
Theorem whole_second_exits_nonzero :
  let w := Sample.world Sample.wholeSecond Sample.noFiles
             (Sample.answer 200 Sample.createdBody) Sample.emptyForm in
  wellFormedTime (now w) /\
  Execute w (PostsCreate "Hello" [] "")
  = (Panic, [Authenticate (inr Sample.token)]) /\
  exitStatus (Execute w (PostsCreate "Hello" [] "")) = 2.
Proof.
  split; [| split; vm_compute; reflexivity].
  unfold wellFormedTime. cbn. lia.
Qed.

(** ** Timestamps *)

Section DigitFacts.

Lemma digitChar_isDigit (d : Z) :
  0 <= d <= 9 -> isDigit (digitChar d) = true.
Proof.
  intro H.
  assert (Hd : d = 0 \/ d = 1 \/ d = 2 \/ d = 3 \/ d = 4 \/ d = 5 \/ d = 6
               \/ d = 7 \/ d = 8 \/ d = 9) by lia.
  repeat (destruct Hd as [-> | Hd]; [reflexivity |]). now subst.
Qed.

Lemma digitChar_zero (d : Z) :
  0 <= d <= 9 -> Ascii.eqb (digitChar d) "0" = true -> d = 0.
Proof.
  intros H.
  assert (Hd : d = 0 \/ d = 1 \/ d = 2 \/ d = 3 \/ d = 4 \/ d = 5 \/ d = 6
               \/ d = 7 \/ d = 8 \/ d = 9) by lia.
  repeat (destruct Hd as [-> | Hd]; [vm_compute; congruence |]).
  subst. vm_compute. congruence.
Qed.

Lemma mod10_digit (u : Z) : 0 <= u mod 10 <= 9.
Proof. pose proof (Z.mod_pos_bound u 10 ltac:(lia)). lia. Qed.

Lemma zeros_snoc (m : nat) : zeros m ++ "0" = zeros (S m).
Proof. induction m as [|m IH]; simpl; [reflexivity | now rewrite IH]. Qed.

Lemma lastDigits_zero (m : nat) : lastDigits m 0 = zeros m.
Proof.
  induction m as [|m IH]; [reflexivity |].
  cbn [lastDigits]. change (0 / 10) with 0. rewrite IH.
  change (String (digitChar (0 mod 10)) "") with "0". apply zeros_snoc.
Qed.

(** Digits beyond the magnitude of the number are zeros. *)
Lemma lastDigits_pad (n : nat) :
  forall (m : nat) (u : Z),
    0 <= u < 10 ^ Z.of_nat n ->
    lastDigits (m + n) u = zeros m ++ lastDigits n u.
Proof.
  induction n as [|n IH]; intros m u Hu.
  - assert (u = 0) by (change (10 ^ Z.of_nat 0) with 1 in Hu; lia). subst u.
    rewrite Nat.add_0_r, lastDigits_zero. cbn [lastDigits].
    now rewrite append_nil_r.
  - replace (m + S n)%nat with (S (m + n)) by lia. cbn [lastDigits].
    rewrite IH, append_assoc; [reflexivity |].
    rewrite Nat2Z.inj_succ, Z.pow_succ_r in Hu by lia.
    split; [apply Z.div_pos; lia | apply Z.div_lt_upper_bound; lia].
Qed.

Lemma countDigits_zero (fuel : nat) : countDigits fuel 0 = O.
Proof. destruct fuel; reflexivity. Qed.

(** With enough fuel, [countDigits] is the number of decimal digits. *)
Lemma countDigits_bounds (fuel : nat) :
  forall u,
    0 < u < 2 ^ Z.of_nat fuel ->
    let c := countDigits fuel u in
    (1 <= c)%nat /\ 10 ^ (Z.of_nat c - 1) <= u < 10 ^ Z.of_nat c.
Proof.
  induction fuel as [|fuel IH]; intros u Hu.
  - change (2 ^ Z.of_nat 0) with 1 in Hu. lia.
  - cbn [countDigits]. destruct (u <=? 0) eqn:Hle; [apply Z.leb_le in Hle; lia |].
    rewrite Nat2Z.inj_succ, Z.pow_succ_r in Hu by lia.
    destruct (Z.eq_dec (u / 10) 0) as [Hsmall | Hbig].
    + rewrite Hsmall, countDigits_zero. cbn.
      assert (u < 10) by (apply Z.div_small_iff in Hsmall; lia).
      lia.
    + assert (Hdiv : 0 < u / 10 < 2 ^ Z.of_nat fuel).
      { pose proof (Z.div_pos u 10). split; [lia |].
        apply Z.div_lt_upper_bound; lia. }
      destruct (IH (u / 10) Hdiv) as [Hc [Hlo Hhi]].
      set (c := countDigits fuel (u / 10)) in *.
      cbv zeta. split; [lia |].
      rewrite Nat2Z.inj_succ.
      replace (Z.succ (Z.of_nat c) - 1) with (Z.succ (Z.of_nat c - 1)) by lia.
      rewrite !Z.pow_succ_r by lia.
      pose proof (Z.div_mod u 10 ltac:(lia)).
      pose proof (Z.mod_pos_bound u 10 ltac:(lia)).
      lia.
Qed.

Lemma numDigits_bounds (u : Z) (w : nat) :
  (1 <= w)%nat -> 0 <= u < 10 ^ Z.of_nat w ->
  (numDigits u <= w)%nat /\ u < 10 ^ Z.of_nat (numDigits u).
Proof.
  intros Hw Hu. unfold numDigits.
  destruct (u =? 0) eqn:Hzero.
  - apply Z.eqb_eq in Hzero. subst u. split; [lia | reflexivity].
  - apply Z.eqb_neq in Hzero.
    assert (Hfuel : 0 < u < 2 ^ Z.of_nat (S (Z.to_nat (Z.log2 u)))).
    { split; [lia |].
      rewrite Nat2Z.inj_succ, Z2Nat.id by apply Z.log2_nonneg.
      apply Z.log2_spec. lia. }
    destruct (countDigits_bounds _ u Hfuel) as [Hc [Hlo Hhi]].
    set (c := countDigits _ u) in *. split; [| exact Hhi].
    assert (Z.of_nat c - 1 < Z.of_nat w); [| lia].
    apply (Z.pow_lt_mono_r_iff 10); lia.
Qed.

(** A non-negative number that fits the width prints as its [width]
    last digits. *)
Lemma appendInt_fits (x : Z) (width : nat) :
  (1 <= width)%nat -> 0 <= x < 10 ^ Z.of_nat width ->
  appendInt x width = lastDigits width x.
Proof.
  intros Hw Hx. unfold appendInt.
  destruct (x <? 0) eqn:Hneg; [apply Z.ltb_lt in Hneg; lia |].
  rewrite Z.abs_eq by lia.
  destruct (numDigits_bounds x width Hw Hx) as [Hn Hlt].
  cbn [append].
  rewrite <- lastDigits_pad by lia.
  f_equal. lia.
Qed.

End DigitFacts.

Section TrimFacts.

Lemma trimZeros_keep (c : ascii) (r : string) :
  trimZeros r <> "" -> trimZeros (String c r) = String c (trimZeros r).
Proof. cbn [trimZeros]. destruct (trimZeros r); [congruence | reflexivity]. Qed.

Lemma trimZeros_cons (c : ascii) (r : string) :
  trimZeros (String c r) <> "" ->
  trimZeros (String c r) = String c (trimZeros r).
Proof.
  cbn [trimZeros]. destruct (trimZeros r); [| reflexivity].
  destruct (Ascii.eqb c "0"); [congruence | reflexivity].
Qed.

Lemma trimZeros_nonzero (c : ascii) (r : string) :
  Ascii.eqb c "0" = false -> trimZeros (String c r) = String c (trimZeros r).
Proof.
  intro Hc. cbn [trimZeros]. rewrite Hc. destruct (trimZeros r); reflexivity.
Qed.

Lemma trimZeros_snoc_empty (a : string) (c : ascii) :
  trimZeros (a ++ String c "") = "" ->
  trimZeros a = "" /\ Ascii.eqb c "0" = true.
Proof.
  induction a as [|x a IH]; cbn [append trimZeros].
  - destruct (Ascii.eqb c "0"); [auto | discriminate].
  - destruct (trimZeros (a ++ String c "")) eqn:Hrest; [| discriminate].
    destruct (IH eq_refl) as [Ha Hc]. rewrite Ha.
    destruct (Ascii.eqb x "0"); [auto | discriminate].
Qed.

(** Digits that trim to nothing are the digits of a multiple of the
    power of ten. *)
Lemma trimZeros_lastDigits_empty (n : nat) :
  forall u, trimZeros (lastDigits n u) = "" -> u mod 10 ^ Z.of_nat n = 0.
Proof.
  induction n as [|n IH]; intros u H.
  - apply Z.mod_1_r.
  - cbn [lastDigits] in H. apply trimZeros_snoc_empty in H as [Hrest Hlast].
    apply digitChar_zero in Hlast; [| apply mod10_digit].
    specialize (IH _ Hrest).
    rewrite Nat2Z.inj_succ, Z.pow_succ_r by lia.
    rewrite Z.rem_mul_r by lia. lia.
Qed.

Lemma trimZeros_allDigits (s : string) :
  allDigits s = true -> allDigits (trimZeros s) = true.
Proof.
  induction s as [|c s IH]; [reflexivity |].
  cbn [allDigits trimZeros]. intro H. apply andb_prop in H as [Hc Hs].
  specialize (IH Hs). destruct (trimZeros s).
  - destruct (Ascii.eqb c "0"); [reflexivity |].
    cbn [allDigits]. now rewrite Hc.
  - cbn [allDigits] in *. now rewrite Hc, IH.
Qed.

Lemma lastDigits_allDigits (n : nat) :
  forall u, allDigits (lastDigits n u) = true.
Proof.
  induction n as [|n IH]; intro u; [reflexivity |].
  cbn [lastDigits]. specialize (IH (u / 10)).
  induction (lastDigits n (u / 10)) as [|c s IHs]; cbn [append allDigits] in *.
  - now rewrite digitChar_isDigit by apply mod10_digit.
  - apply andb_prop in IH as [Hc Hs]. now rewrite Hc, IHs.
Qed.

Lemma lastChar_digit (s : string) (c : ascii) :
  allDigits s = true -> lastChar s = Some c -> isDigit c = true.
Proof.
  induction s as [|x s IH]; [discriminate |].
  cbn [allDigits lastChar]. intro H. apply andb_prop in H as [Hx Hs].
  destruct s as [|y s]; [congruence | auto].
Qed.

Lemma lastDigits_split (n : nat) :
  forall (m : nat) (u : Z),
    lastDigits (m + n) u
    = lastDigits m (u / 10 ^ Z.of_nat n) ++ lastDigits n u.
Proof.
  induction n as [|n IH]; intros m u.
  - rewrite Nat.add_0_r. change (10 ^ Z.of_nat 0) with 1.
    rewrite Z.div_1_r. cbn [lastDigits]. now rewrite append_nil_r.
  - replace (m + S n)%nat with (S (m + n)) by lia. cbn [lastDigits].
    rewrite IH, append_assoc.
    rewrite Nat2Z.inj_succ, Z.pow_succ_r by lia.
    rewrite Z.div_div by lia. reflexivity.
Qed.

(** The fraction printed for a nanosecond field that is not a multiple
    of ten milliseconds: the dot, the three millisecond digits, and
    whatever is left of the other six. *)
Lemma appendNano_millis (ns : Z) :
  0 <= ns <= 999999999 -> ns mod 10000000 <> 0 ->
  exists rest,
    appendNano ns = "." ++ lastDigits 3 (ns / 1000000) ++ rest.
Proof.
  intros Hns Hmod. unfold appendNano.
  destruct (ns =? 0) eqn:Hzero;
    [apply Z.eqb_eq in Hzero; subst ns; contradiction Hmod; reflexivity |].
  rewrite appendInt_fits by (cbn; lia).
  pose proof (trimZeros_lastDigits_empty 7 ns) as Hseven.
  rewrite (lastDigits_split 6 1 ns : lastDigits 7 ns = _) in Hseven.
  rewrite (lastDigits_split 6 3 ns : lastDigits 9 ns = _).
  change (10 ^ Z.of_nat 6) with 1000000 in *.
  change (10 ^ Z.of_nat 7) with 10000000 in *.
  pose proof (lastDigits_allDigits 6 ns) as Hdigits.
  set (low := lastDigits 6 ns) in *.
  set (ms := ns / 1000000) in *.
  cbn [lastDigits append] in *.
  assert (Hkeep : trimZeros (String (digitChar (ms mod 10)) low) <> "").
  { intro H. apply Hmod. exact (Hseven H). }
  rewrite trimZeros_nonzero by reflexivity.
  rewrite trimZeros_keep
    by (rewrite trimZeros_keep; [discriminate | assumption]).
  rewrite trimZeros_keep by assumption.
  rewrite (trimZeros_cons _ _ Hkeep).
  exists (trimZeros low).
  apply trimZeros_allDigits in Hdigits.
  destruct (lastChar _) as [c |] eqn:Hlast; [| reflexivity].
  cbn [lastChar] in Hlast.
  assert (Hc : isDigit c = true).
  { destruct (trimZeros low) eqn:Hlow.
    - injection Hlast as <-. apply digitChar_isDigit, mod10_digit.
    - exact (lastChar_digit _ c Hdigits Hlast). }
  destruct c as [[] [] [] [] [] [] [] []]; try reflexivity; discriminate Hc.
Qed.

End TrimFacts.

Lemma digitChar_mod10 (u : Z) : isDigit (digitChar (u mod 10)) = true.
Proof. apply digitChar_isDigit, mod10_digit. Qed.

(** Whenever the nanosecond field is not a multiple of ten milliseconds,
    [getCurrentTime] returns the millisecond timestamp, and it is valid. *)
Lemma getCurrentTime_valid (t : Time) :
  wellFormedTime t ->
  Nanosecond t mod 10000000 <> 0 ->
  getCurrentTime t = Some (timestampSpec t) /\
  validTimestamp (timestampSpec t) = true.
Proof.
  intros (Hy & Hmo & Hd & Hh & Hmi & Hs & Hns) Hmod. split.
  - unfold getCurrentTime, formatRFC3339Nano, timestampSpec.
    rewrite !appendInt_fits by (cbn; lia).
    destruct (appendNano_millis _ Hns Hmod) as [rest ->].
    cbn [lastDigits append sliceTo option_map]. reflexivity.
  - unfold validTimestamp, timestampSpec, iso8601Millis.
    cbn [lastDigits append matchesPattern].
    rewrite !digitChar_mod10. reflexivity.
Qed.

(** C4, on the code: a clock that reads a whole second makes
    [getCurrentTime] panic, and a clock that reads 120 milliseconds past
    the second makes it return a string that ends in [ZZ]. *)
Theorem getCurrentTime_short_fraction :
  wellFormedTime Sample.wholeSecond /\
  formatRFC3339Nano Sample.wholeSecond = "2025-01-02T12:00:00Z" /\
  getCurrentTime Sample.wholeSecond = None /\
  wellFormedTime Sample.twoDigits /\
  formatRFC3339Nano Sample.twoDigits = "2025-01-02T12:00:00.12Z" /\
  getCurrentTime Sample.twoDigits = Some "2025-01-02T12:00:00.12ZZ" /\
  validTimestamp "2025-01-02T12:00:00.12ZZ" = false.
Proof.
  unfold wellFormedTime. cbn [Sample.wholeSecond Sample.twoDigits Year Month
    Day Hour Minute Second Nanosecond].
  repeat (split; [first [lia | vm_compute; reflexivity] |]).
  vm_compute; reflexivity.
Qed.

(** The fraction printed for a multiple of ten milliseconds has at most
    two digits. *)
Lemma appendNano_short (ns : Z) :
  0 <= ns <= 999999999 -> ns mod 10000000 = 0 ->
  (String.length (appendNano ns) <= 3)%nat.
Proof.
  intros Hns Hmod.
  pose (check := fun k : nat =>
          (String.length (appendNano (10000000 * Z.of_nat k)) <=? 3)%nat).
  assert (Hall : forallb check (seq 0 100) = true) by (vm_compute; reflexivity).
  rewrite forallb_forall in Hall.
  pose proof (Z.div_mod ns 10000000 ltac:(lia)) as Hdiv.
  rewrite Hmod, Z.add_0_r in Hdiv.
  assert (Hk : 0 <= ns / 10000000 < 100)
    by (split; [apply Z.div_pos; lia | apply Z.div_lt_upper_bound; lia]).
  specialize (Hall (Z.to_nat (ns / 10000000))).
  unfold check in Hall. rewrite Z2Nat.id, <- Hdiv in Hall by lia.
  apply Nat.leb_le, Hall, in_seq. lia.
Qed.

(** For such a clock reading [getCurrentTime] panics or returns a string
    that is not a valid timestamp. *)
Lemma getCurrentTime_short (t : Time) :
  wellFormedTime t ->
  Nanosecond t mod 10000000 = 0 ->
  getCurrentTime t = None \/
  exists s, getCurrentTime t = Some s /\ validTimestamp s = false.
Proof.
  intros (Hy & Hmo & Hd & Hh & Hmi & Hs & Hns) Hmod.
  pose proof (appendNano_short _ Hns Hmod) as Hlen.
  unfold getCurrentTime, formatRFC3339Nano.
  rewrite !appendInt_fits by (cbn; lia).
  destruct (appendNano (Nanosecond t)) as [|c1 [|c2 [|c3 [|c4 rest]]]];
    cbn [lastDigits append sliceTo option_map String.length] in *.
  1-3: left; reflexivity.
  - right. eexists. split; [reflexivity |].
    unfold validTimestamp, iso8601Millis. cbn [append matchesPattern].
    change (isDigit "Z") with false.
    rewrite !digitChar_mod10. cbn [andb].
    repeat rewrite andb_false_r. reflexivity.
  - lia.
Qed.

(** [getCurrentTime] returns a valid timestamp exactly for the clock
    readings whose nanosecond field is not a multiple of ten
    milliseconds. *)
Lemma getCurrentTime_valid_iff (t : Time) :
  wellFormedTime t ->
  (exists s, getCurrentTime t = Some s /\ validTimestamp s = true) <->
  Nanosecond t mod 10000000 <> 0.
Proof.
  intro Hwf. split.
  - intros (s & Hsome & Hvalid) Hmod.
    destruct (getCurrentTime_short t Hwf Hmod) as [Hnone | (s' & Hs' & Hbad)];
      congruence.
  - intro Hmod. exists (timestampSpec t). now apply getCurrentTime_valid.
Qed.

(** * Further properties *)

(** ** The upload request *)

(** Whatever [uploadImage] sends is the file: a POST of its bytes to the
    upload endpoint, under the caller's token, for a readable file within
    the size limit. *)
Lemma uploadImage_request w token imagePath timeout req res :
  In (HttpDo timeout req res) (snd (uploadImage w token imagePath)) ->
  exists imgData,
    osStat w imagePath = StatOk /\
    osReadFile w imagePath = inr imgData /\
    lenBytes imgData <= 1000000 /\
    urlError w (API_URL w ++ "/com.atproto.repo.uploadBlob") = None /\
    timeout = Some 30 /\
    Method req = "POST" /\
    URL req = API_URL w ++ "/com.atproto.repo.uploadBlob" /\
    ReqBody req = BodyBytes imgData /\
    headerGet "Authorization" (ReqHeader req)
    = Some ("Bearer " ++ AccessJwt token) /\
    res = httpDo w req.
Proof.
  unfold uploadImage, httpNewRequest. run_unfold.
  repeat split_scrutinee; cbn [snd app In]; intro H; event_cases H.
  all: injection H as <- <- <-.
  all: match goal with
       | E : (lenBytes ?d >? maxImageSize) = false |- _ =>
           exists d; rewrite Z.gtb_ltb in E; apply Z.ltb_ge in E;
           unfold maxImageSize in E
       end.
  all: repeat (split; [first [assumption | reflexivity] |]).
  all: symmetry; assumption.
Qed.

Lemma uploadImage_count w token imagePath :
  (countHttp (snd (uploadImage w token imagePath)) <= 1)%nat /\
  (countHttp (snd (uploadImage w token imagePath)) = 1%nat <->
   exists imgData,
     osStat w imagePath = StatOk /\
     osReadFile w imagePath = inr imgData /\
     lenBytes imgData <= 1000000 /\
     urlError w (API_URL w ++ "/com.atproto.repo.uploadBlob") = None).
Proof.
  unfold uploadImage, httpNewRequest, countHttp. run_unfold.
  repeat split_scrutinee; cbn [snd app filter isHttp List.length].
  all: split; [lia |].
  all: split; [intro Hone | intros (d & H1 & H2 & H3 & H4)];
    try reflexivity; try discriminate.
  all: try match goal with
       | E : (lenBytes ?d >? maxImageSize) = false |- exists _, _ =>
           exists d; rewrite Z.gtb_ltb in E; apply Z.ltb_ge in E;
           unfold maxImageSize in E; repeat split; assumption
       end.
  all: try match goal with
       | E : (lenBytes _ >? maxImageSize) = true |- _ =>
           injection H2 as <-; apply Z.gtb_lt in E; unfold maxImageSize in E;
           lia
       end.
Qed.

(** X1: every request [uploadImage] sends is a POST of the bytes of the
    file to the upload endpoint with the caller's bearer token and the
    30 second client, and the file is readable and of at most 1,000,000
    bytes. *)
Theorem uploadImage_sends_the_file :
  forall w token imagePath timeout req res,
    In (HttpDo timeout req res) (snd (uploadImage w token imagePath)) ->
    exists imgData,
      osStat w imagePath = StatOk /\
      osReadFile w imagePath = inr imgData /\
      lenBytes imgData <= 1000000 /\
      urlError w (API_URL w ++ "/com.atproto.repo.uploadBlob") = None /\
      timeout = Some 30 /\
      Method req = "POST" /\
      URL req = API_URL w ++ "/com.atproto.repo.uploadBlob" /\
      ReqBody req = BodyBytes imgData /\
      headerGet "Authorization" (ReqHeader req)
      = Some ("Bearer " ++ AccessJwt token) /\
      res = httpDo w req.
Proof. exact uploadImage_request. Qed.

Lemma uploadImage_sends_the_file_witness :
  let w := Sample.world Sample.noon (Sample.oneFile "cat.gif" Sample.smallImage)
             (Sample.answer 200 (Sample.blobBody "bafkrei")) Sample.emptyForm in
  exists req res imgData,
    In (HttpDo (Some 30) req res) (snd (uploadImage w Sample.token "cat.gif")) /\
    osReadFile w "cat.gif" = inr imgData /\
    ReqBody req = BodyBytes imgData /\
    headerGet "Authorization" (ReqHeader req) = Some "Bearer jwt".
Proof.
  intro w.
  assert (Hsent : exists req res,
             In (HttpDo (Some 30) req res)
                (snd (uploadImage w Sample.token "cat.gif"))).
  { do 2 eexists. lazy. right. left. reflexivity. }
  destruct Hsent as (req & res & Hsent).
  destruct (uploadImage_sends_the_file w Sample.token "cat.gif" _ req res Hsent)
    as (imgData & _ & Hread & _ & _ & _ & _ & _ & Hbody & Hauth & _).
  exists req, res, imgData. repeat split; assumption.
Defined.

(** X2: [uploadImage] sends at most one request, and it sends one exactly
    when the file exists, can be read, has at most 1,000,000 bytes (the
    limit included) and the endpoint URL parses. *)
Theorem uploadImage_sends_once :
  forall w token imagePath,
    (countHttp (snd (uploadImage w token imagePath)) <= 1)%nat /\
    (countHttp (snd (uploadImage w token imagePath)) = 1%nat <->
     exists imgData,
       osStat w imagePath = StatOk /\
       osReadFile w imagePath = inr imgData /\
       lenBytes imgData <= 1000000 /\
       urlError w (API_URL w ++ "/com.atproto.repo.uploadBlob") = None).
Proof. exact uploadImage_count. Qed.

(** X3: [uploadImage] returns a blob response only after a request that
    was answered with status 200 and a body that decodes to that very
    response, and it has logged the success. *)
Theorem uploadImage_success_means_200 :
  forall w token imagePath blobResp trace,
    uploadImage w token imagePath = (Done (inr blobResp), trace) ->
    exists req resp respBody,
      In (HttpDo (Some 30) req (inr resp)) trace /\
      StatusCode resp = 200 /\
      RespBody resp = inr respBody /\
      jsonUnmarshalBlob w respBody = inr blobResp /\
      exists size,
        In (Slog LevelInfo "Image uploaded successfully"
              [("blob_link", LString (Link (Ref (Blob blobResp))));
               ("size", LInt size)]) trace.
Proof.
  intros w token imagePath blobResp trace.
  unfold uploadImage, httpNewRequest. run_unfold.
  repeat split_scrutinee; intro H; try discriminate H.
  all: injection H as <- <-.
  all: match goal with
       | E : negb (StatusCode _ =? 200) = false |- _ =>
           apply negb_false_iff, Z.eqb_eq in E
       end.
  all: do 3 eexists; cbn [app In].
  all: split; [right; left; reflexivity |].
  all: repeat (split; [eassumption |]).
  all: eexists; do 2 right; left; reflexivity.
Qed.

Lemma uploadImage_success_means_200_witness :
  let w := Sample.world Sample.noon (Sample.oneFile "cat.gif" Sample.smallImage)
             (Sample.answer 200 (Sample.blobBody "bafkrei")) Sample.emptyForm in
  exists req resp,
    In (HttpDo (Some 30) req (inr resp))
       (snd (uploadImage w Sample.token "cat.gif")) /\
    StatusCode resp = 200.
Proof.
  intro w.
  destruct (uploadImage_success_means_200 w Sample.token "cat.gif"
              (Sample.blob "bafkrei") (snd (uploadImage w Sample.token "cat.gif"))
              eq_refl)
    as (req & resp & respBody & Hsent & Hstatus & _).
  exists req, resp. split; assumption.
Defined.

(** X4: when the upload is answered with a status other than 200,
    [uploadImage] returns the server's own message if the body decodes to
    an object with a string [message] (and logs the object), and the
    status with the raw body otherwise. *)
Theorem uploadImage_error_response :
  forall w token imagePath timeout req resp respBody,
    In (HttpDo timeout req (inr resp)) (snd (uploadImage w token imagePath)) ->
    StatusCode resp <> 200 ->
    RespBody resp = inr respBody ->
    match jsonUnmarshalMap w respBody with
    | Some errResp =>
        In (Slog LevelError "API error response" [("response", LMap errResp)])
           (snd (uploadImage w token imagePath)) /\
        match mapGet "message" errResp with
        | Some (JString message) =>
            fst (uploadImage w token imagePath)
            = Done (inl ("API error: " ++ message))
        | _ =>
            fst (uploadImage w token imagePath)
            = Done (inl ("unexpected status code: " ++ itoa (StatusCode resp)
                         ++ " - " ++ respBody))
        end
    | None =>
        fst (uploadImage w token imagePath)
        = Done (inl ("unexpected status code: " ++ itoa (StatusCode resp)
                     ++ " - " ++ respBody))
    end.
Proof.
  intros w token imagePath timeout req resp respBody.
  unfold uploadImage, httpNewRequest. run_unfold.
  repeat split_scrutinee; cbn [fst snd app In]; intro H; event_cases H.
  all: injection H as <- <- <-; intros Hstatus Hbody.
  all: try match goal with
       | E : negb (StatusCode _ =? 200) = false |- _ =>
           apply negb_false_iff, Z.eqb_eq in E; contradiction
       end.
  all: match goal with
       | E : RespBody _ = inr ?b |- _ =>
           assert (b = respBody) by congruence; subst b
       | E : RespBody _ = inl _ |- _ => congruence
       end.
  all: repeat match goal with
       | E1 : ?x = Some ?a, E2 : ?x = Some ?b |- _ =>
           tryif constr_eq a b then fail
           else (assert (b = a) by congruence; subst b; clear E2)
       | E1 : ?x = Some _, E2 : ?x = None |- _ => congruence
       end.
  all: try congruence.
  all: split; [do 2 right; left; reflexivity | congruence].
Qed.

Lemma uploadImage_error_response_witness :
  let rateLimited : JMap :=
    [("error", JString "RateLimitExceeded");
     ("message", JString "Rate Limit Exceeded")] in
  let w := setMapDecoder
             (Sample.world Sample.noon
                (Sample.oneFile "cat.gif" Sample.smallImage)
                (Sample.answer 429 (Sample.render (JObject rateLimited)))
                Sample.emptyForm)
             (fun _ => Some rateLimited) in
  fst (uploadImage w Sample.token "cat.gif")
  = Done (inl "API error: Rate Limit Exceeded").
Proof.
  intros rateLimited w.
  assert (Hsent : exists req,
             In (HttpDo (Some 30) req
                   (inr (mkResponse 429
                           (inr (Sample.render (JObject rateLimited))))))
                (snd (uploadImage w Sample.token "cat.gif"))).
  { eexists. lazy. right. left. reflexivity. }
  destruct Hsent as [req Hsent].
  pose proof (uploadImage_error_response w Sample.token "cat.gif" _ req _
                (Sample.render (JObject rateLimited)) Hsent
                ltac:(discriminate) eq_refl) as Herr.
  exact (proj2 Herr).
Defined.

Lemma getMimeType_values w filename :
  In (getMimeType w filename)
     [""; "image/jpeg"; "image/png"; "image/gif"; "image/webp"].
Proof.
  unfold getMimeType.
  repeat match goal with
         | |- context [if ?c then _ else _] => destruct c
         end; cbn; tauto.
Qed.

(** X5: the content type of an upload request is always one of the four
    image types of the table, never empty and never anything else. *)
Theorem uploadImage_content_type_is_an_image_type :
  forall w token imagePath timeout req res,
    In (HttpDo timeout req res) (snd (uploadImage w token imagePath)) ->
    exists mimeType,
      headerGet "Content-Type" (ReqHeader req) = Some mimeType /\
      In mimeType ["image/jpeg"; "image/png"; "image/gif"; "image/webp"].
Proof.
  intros w token imagePath timeout req res H.
  destruct (uploadImage_http w token imagePath timeout req res H)
    as (_ & _ & Htype).
  eexists. split; [exact Htype |].
  pose proof (getMimeType_values w imagePath) as Hvalues.
  destruct (String.eqb_spec (getMimeType w imagePath) "") as [Hempty | Hfull].
  - left. reflexivity.
  - destruct Hvalues as [Hv | Hv]; [congruence | exact Hv].
Qed.

Lemma uploadImage_content_type_is_an_image_type_witness :
  let w := Sample.world Sample.noon (Sample.oneFile "cat.gif" Sample.smallImage)
             (Sample.answer 200 (Sample.blobBody "bafkrei")) Sample.emptyForm in
  exists req mimeType,
    headerGet "Content-Type" (ReqHeader req) = Some mimeType /\
    In mimeType ["image/jpeg"; "image/png"; "image/gif"; "image/webp"].
Proof.
  intro w.
  assert (Hsent : exists req res,
             In (HttpDo (Some 30) req res)
                (snd (uploadImage w Sample.token "cat.gif"))).
  { do 2 eexists. lazy. right. left. reflexivity. }
  destruct Hsent as (req & res & Hsent).
  destruct (uploadImage_content_type_is_an_image_type w Sample.token "cat.gif"
              _ req res Hsent) as (mimeType & Htype & Hin).
  exists req, mimeType. split; assumption.
Defined.

(** ** Names without an extension *)

Lemma extLoop_plain (base : string) :
  plainExtension base = true ->
  forall k, (k <= String.length base)%nat -> extLoop base k = "".
Proof.
  intros Hplain k. induction k as [|k IH]; intro Hk; [reflexivity |].
  cbn [extLoop].
  destruct (get_plainExtension base Hplain k) as (c & Hget & Hsep & Hdot);
    [lia |].
  rewrite Hget, Hsep, Hdot. apply IH. lia.
Qed.

Lemma extLoop_after_separator (dir base : string) :
  plainExtension base = true ->
  forall k, (k <= String.length base)%nat ->
  extLoop (dir ++ String "/" base) (String.length dir + 1 + k) = "".
Proof.
  intros Hplain k. induction k as [|k IH]; intro Hk.
  - replace (String.length dir + 1 + 0)%nat with (S (String.length dir))
      by lia.
    cbn [extLoop].
    replace (String.length dir) with (String.length dir + 0)%nat at 1 by lia.
    rewrite get_append_r. reflexivity.
  - replace (String.length dir + 1 + S k)%nat
      with (S (String.length dir + S k)) by lia.
    cbn [extLoop]. rewrite get_append_r. cbn [get].
    destruct (get_plainExtension base Hplain k) as (c & Hget & Hsep & Hdot);
      [lia |].
    rewrite Hget, Hsep, Hdot.
    replace (String.length dir + S k)%nat
      with (String.length dir + 1 + k)%nat by lia.
    apply IH. lia.
Qed.

(** X6: only the last path element gives a file its type: a name whose
    last element has no dot has no MIME type of its own, whatever dots
    the directories before it carry. *)
Theorem getMimeType_reads_the_last_element :
  forall w dir base,
    plainExtension base = true ->
    getMimeType w (dir ++ "/" ++ base) = "" /\ getMimeType w base = "".
Proof.
  intros w dir base Hplain.
  assert (Hdir : Ext (dir ++ "/" ++ base) = "").
  { unfold Ext. change ("/" ++ base) with (String "/" base).
    rewrite length_append. cbn [String.length].
    replace (String.length dir + S (String.length base))%nat
      with (String.length dir + 1 + String.length base)%nat by lia.
    now apply extLoop_after_separator. }
  assert (Hbase : Ext base = "") by (now apply extLoop_plain).
  unfold getMimeType. rewrite Hdir, Hbase. split; reflexivity.
Qed.

Lemma getMimeType_reads_the_last_element_witness :
  let w := Sample.world Sample.noon Sample.noFiles
             (Sample.answer 200 (Sample.blobBody "bafkrei")) Sample.emptyForm in
  getMimeType w "album.png/readme" = "" /\ getMimeType w "readme" = "".
Proof.
  intro w.
  exact (getMimeType_reads_the_last_element w "album.png" "readme" eq_refl).
Defined.

(** ** What [CreatePost] sends *)

Lemma uploadImage_no_record_request w token imagePath :
  filter isRecordRequest (snd (uploadImage w token imagePath)) = [].
Proof.
  unfold uploadImage, httpNewRequest. run_unfold.
  repeat split_scrutinee; reflexivity.
Qed.

Ltac find_in :=
  cbn [In app];
  first [ left; reflexivity
        | right; find_in
        | apply in_or_app; right; find_in ].

Ltac with_upload_counts w token imagePath :=
  pose proof (uploadImage_request w token imagePath) as Hreq;
  pose proof (proj1 (uploadImage_count w token imagePath)) as Hcount;
  pose proof (uploadImage_no_record_request w token imagePath) as Hnorec;
  unfold countHttp in Hcount.

Ltac run_CreatePost_counts w token imagePath :=
  unfold CreatePost, getCurrentTimeNow, getImageDimensions, httpNewRequest;
  with_upload_counts w token imagePath;
  with_upload w token imagePath;
  run_unfold; repeat split_scrutinee; cbn [fst snd app In].

(** X7: a failed upload aborts the post: [CreatePost] returns the wrapped
    upload error, its trace is the announcement and the trace of the
    upload, and no record-creation request is sent. *)
Theorem CreatePost_upload_failure_aborts :
  forall w token content imagePath createdAt e uploaded,
    imagePath <> "" ->
    getCurrentTime (now w) = Some createdAt ->
    uploadImage w token imagePath = (Done (inl e), uploaded) ->
    CreatePost w token content imagePath
    = (Done (Some ("failed to upload image: " ++ e)),
       Println ("Uploading image: " ++ imagePath) :: uploaded) /\
    forall req res,
      ~ In (HttpDo None req res) (snd (CreatePost w token content imagePath)).
Proof.
  intros w token content imagePath createdAt e uploaded Hpath Hnow Hupload.
  assert (Hrun : CreatePost w token content imagePath
                 = (Done (Some ("failed to upload image: " ++ e)),
                    Println ("Uploading image: " ++ imagePath) :: uploaded)).
  { unfold CreatePost, getCurrentTimeNow. rewrite Hnow.
    apply String.eqb_neq in Hpath. rewrite Hpath. run_unfold.
    rewrite Hupload. cbn [negb app]. rewrite !app_nil_r. reflexivity. }
  split; [exact Hrun |].
  intros req res. rewrite Hrun. cbn [snd In]. intros [H | H]; [discriminate |].
  pose proof (uploadImage_no_plain_client w token imagePath req res) as Hnone.
  rewrite Hupload in Hnone. exact (Hnone H).
Qed.

Lemma CreatePost_upload_failure_aborts_witness :
  let w := Sample.world Sample.noon Sample.noFiles
             (Sample.answer 200 Sample.createdBody) Sample.emptyForm in
  CreatePost w Sample.token "Hello" "missing.png"
  = (Done (Some "failed to upload image: image file does not exist: missing.png"),
     [Println "Uploading image: missing.png"]).
Proof.
  intro w.
  exact (proj1 (CreatePost_upload_failure_aborts w Sample.token "Hello"
                  "missing.png" "2025-01-02T12:00:00.678Z"
                  "image file does not exist: missing.png" []
                  ltac:(discriminate) eq_refl eq_refl)).
Defined.

(** X8: [CreatePost] returns [nil] only after a record-creation request
    that was answered with status 200, and, when an image was given, only
    after an upload that returned a blob response. *)
Theorem CreatePost_success_means_200 :
  forall w token content imagePath,
    fst (CreatePost w token content imagePath) = Done None ->
    (exists req resp,
        In (HttpDo None req (inr resp))
           (snd (CreatePost w token content imagePath)) /\
        StatusCode resp = 200) /\
    (imagePath <> "" ->
     exists blobResp,
       fst (uploadImage w token imagePath) = Done (inr blobResp)).
Proof.
  intros w token content imagePath.
  run_CreatePost w token imagePath; intro H; try discriminate H.
  all: match goal with
       | E : negb (StatusCode _ =? 200) = false |- _ =>
           apply negb_false_iff, Z.eqb_eq in E
       end.
  all: split;
    [ do 2 eexists; split; [find_in | eassumption]
    | intro Hpath ].
  all: try (eexists; f_equal; eassumption).
  all: match goal with
       | E : negb (String.eqb _ "") = false |- _ =>
           apply negb_false_iff, String.eqb_eq in E; contradiction
       end.
Qed.

Lemma CreatePost_success_means_200_witness :
  let w := Sample.world Sample.noon Sample.noFiles
             (Sample.answer 200 Sample.createdBody) Sample.emptyForm in
  exists req resp,
    In (HttpDo None req (inr resp)) (snd (CreatePost w Sample.token "Hello" "")) /\
    StatusCode resp = 200.
Proof.
  intro w.
  assert (Hnil : fst (CreatePost w Sample.token "Hello" "") = Done None)
    by (vm_compute; reflexivity).
  exact (proj1 (CreatePost_success_means_200 w Sample.token "Hello" "" Hnil)).
Defined.

(** X9: [CreatePost] sends at most two requests, at most one of them a
    record-creation request; without an image it sends at most one
    request and prints nothing. *)
Theorem CreatePost_request_budget :
  forall w token content imagePath,
    (countHttp (snd (CreatePost w token content imagePath)) <= 2)%nat /\
    (List.length (filter isRecordRequest
                    (snd (CreatePost w token content imagePath))) <= 1)%nat /\
    (imagePath = "" ->
     (countHttp (snd (CreatePost w token content imagePath)) <= 1)%nat /\
     filter isPrintln (snd (CreatePost w token content imagePath)) = []).
Proof.
  intros w token content imagePath. unfold countHttp.
  run_CreatePost_counts w token imagePath.
  all: repeat rewrite filter_app.
  all: cbn [filter isHttp isRecordRequest isPrintln app].
  all: repeat rewrite filter_app.
  all: cbn [filter isHttp isRecordRequest isPrintln app].
  all: rewrite ?Hnorec; repeat rewrite length_app; cbn [List.length app].
  all: split; [lia | split; [lia |]].
  all: intro Hpath; try (split; [lia | reflexivity]).
  all: subst imagePath; discriminate.
Qed.

(** X10: the record-creation request carries the post as built from the
    arguments: collection, repository of the token, text, timestamp of the
    call, and, when an image was given, the embed of the uploaded blob
    with its aspect ratio if one is known; it is a POST of that JSON to
    the record endpoint under the caller's token. *)
Theorem CreatePost_sends_the_record :
  forall w token content imagePath req res,
    In (HttpDo None req res) (snd (CreatePost w token content imagePath)) ->
    exists createdAt image jsonBody,
      getCurrentTime (now w) = Some createdAt /\
      (imagePath = "" /\ image = None \/
       imagePath <> "" /\
       exists blobResp,
         fst (uploadImage w token imagePath) = Done (inr blobResp) /\
         image = Some (imageEmbedSpec blobResp (aspectRatioOf w imagePath))) /\
      jsonMarshal w (requestBodySpec token (recordSpec content createdAt image))
      = inr jsonBody /\
      ReqBody req = BodyText jsonBody /\
      Method req = "POST" /\
      URL req = API_URL w ++ "/com.atproto.repo.createRecord" /\
      headerGet "Authorization" (ReqHeader req)
      = Some ("Bearer " ++ AccessJwt token) /\
      headerGet "Content-Type" (ReqHeader req) = Some "application/json".
Proof.
  intros w token content imagePath req res.
  unfold aspectRatioOf.
  run_CreatePost w token imagePath; intro H; in_cases H.
  all: try (apply Hplain in H; contradiction H).
  all: injection H as <- <-.
  all: match goal with
       | E : negb (String.eqb _ "") = true |- _ =>
           apply negb_true_iff, String.eqb_neq in E
       | E : negb (String.eqb _ "") = false |- _ =>
           apply negb_false_iff, String.eqb_eq in E
       end.
  all: eexists; eexists; eexists.
  all: split; [reflexivity |].
  all: split;
    [ first [ left; split; [assumption | reflexivity]
            | right; split; [assumption |];
              eexists; split; [f_equal; eassumption | reflexivity] ] |].
  all: split; [eassumption |].
  all: repeat split.
Qed.

Lemma CreatePost_sends_the_record_witness :
  let w := Sample.world Sample.noon Sample.noFiles
             (Sample.answer 200 Sample.createdBody) Sample.emptyForm in
  exists req,
    ReqBody req
    = BodyText
        (Sample.render
           (requestBodySpec Sample.token
              (recordSpec "Hello" "2025-01-02T12:00:00.678Z" None))) /\
    URL req = "https://bsky.social/xrpc/com.atproto.repo.createRecord".
Proof.
  intro w.
  assert (Hsent : exists req res,
             In (HttpDo None req res)
                (snd (CreatePost w Sample.token "Hello" ""))).
  { do 2 eexists. lazy. left. reflexivity. }
  destruct Hsent as (req & res & Hsent).
  destruct (CreatePost_sends_the_record w Sample.token "Hello" "" req res Hsent)
    as (createdAt & image & jsonBody & Hnow & Himage & Hmarshal & Hbody & _
        & Hurl & _).
  exists req. split; [| exact Hurl].
  destruct Himage as [[_ ->] | [Hpath _]]; [| contradiction Hpath; reflexivity].
  injection Hnow as <-. injection Hmarshal as <-. exact Hbody.
Defined.

(** ** Image dimensions *)

(** X11: [getImageDimensions] returns zero dimensions with every error,
    and the record carries an aspect ratio only for an image that opened
    and decoded with both dimensions positive; an image that decodes with
    a dimension that is not positive loses the ratio without any error. *)
Theorem aspectRatio_is_best_effort :
  forall w imagePath,
    (forall e,
        snd (getImageDimensions w imagePath) = Some e ->
        getImageDimensions w imagePath = (0, 0, Some e) /\
        aspectRatioOf w imagePath = None) /\
    (forall width height,
        aspectRatioOf w imagePath = Some (width, height) ->
        0 < width /\ 0 < height /\
        osOpen w imagePath = None /\
        imageDecodeConfig w imagePath = inr (width, height)) /\
    (forall width height,
        osOpen w imagePath = None ->
        imageDecodeConfig w imagePath = inr (width, height) ->
        width <= 0 \/ height <= 0 ->
        getImageDimensions w imagePath = (width, height, None) /\
        aspectRatioOf w imagePath = None).
Proof.
  intros w imagePath. unfold aspectRatioOf, getImageDimensions.
  destruct (osOpen w imagePath) as [e0 |].
  - split; [| split].
    + intros e H. cbn [snd] in H. injection H as <-. split; reflexivity.
    + intros width height H. discriminate H.
    + intros width height H. discriminate H.
  - destruct (imageDecodeConfig w imagePath) as [e0 | [width0 height0]].
    + split; [| split].
      * intros e H. cbn [snd] in H. injection H as <-. split; reflexivity.
      * intros width height H. discriminate H.
      * intros width height _ H. discriminate H.
    + split; [discriminate | split].
      * intros width height.
        destruct (width0 >? 0) eqn:Hw; destruct (height0 >? 0) eqn:Hh;
          cbn [andb]; intro H; try discriminate H.
        injection H as <- <-.
        apply Z.gtb_lt in Hw, Hh. repeat split; assumption.
      * intros width height _ Hdecode Hsmall.
        injection Hdecode as <- <-. split; [reflexivity |].
        destruct (width0 >? 0) eqn:Hw; destruct (height0 >? 0) eqn:Hh;
          cbn [andb]; try reflexivity.
        apply Z.gtb_lt in Hw, Hh. lia.
Qed.

Ltac find_in2 :=
  cbn [In app];
  first [ left; reflexivity
        | right; find_in2
        | apply in_or_app; right; find_in2
        | apply in_or_app; left; find_in2 ].

(** X12: the warning about the dimensions is logged exactly when the
    timestamp was cut, an image was given, its upload returned a blob
    response and reading its dimensions failed, with that failure as the
    logged error. *)
Theorem CreatePost_dimension_warning :
  forall w token content imagePath e,
    In (Slog LevelWarn "Could not determine image dimensions"
          [("error", LError e)])
       (snd (CreatePost w token content imagePath)) <->
    (exists createdAt blobResp,
        getCurrentTime (now w) = Some createdAt /\
        imagePath <> "" /\
        fst (uploadImage w token imagePath) = Done (inr blobResp) /\
        snd (getImageDimensions w imagePath) = Some e).
Proof.
  intros w token content imagePath e.
  run_CreatePost w token imagePath.
  all: try match goal with
       | E : negb (String.eqb _ "") = true |- _ =>
           apply negb_true_iff, String.eqb_neq in E
       | E : negb (String.eqb _ "") = false |- _ =>
           apply negb_false_iff, String.eqb_eq in E
       end.
  all: split;
    [ intro H; in_cases H
    | intros (createdAt & blobResp & Hnow & Hpath & Hup & Hdim) ].
  all: try discriminate; try contradiction; try congruence.
  all: try (apply Hev in H;
            destruct H as [[? H] | [[? H] | [[? H] | [? [? H]]]]];
            discriminate H).
  all: try (injection H as <-; do 2 eexists; repeat split;
            first [eassumption | reflexivity | f_equal; eassumption]).
  all: injection Hdim as <-; find_in2.
Qed.

(** ** Runs of the command *)

Lemma CreatePost_requests w token content imagePath timeout req res :
  In (HttpDo timeout req res) (snd (CreatePost w token content imagePath)) ->
  headerGet "Authorization" (ReqHeader req)
  = Some ("Bearer " ++ AccessJwt token) /\
  Method req = "POST" /\
  res = httpDo w req.
Proof.
  unfold CreatePost, getCurrentTimeNow, getImageDimensions, httpNewRequest.
  pose proof (uploadImage_request w token imagePath) as Hreq.
  with_upload w token imagePath.
  run_unfold; repeat split_scrutinee; cbn [fst snd app In]; intro H;
    in_cases H.
  all: try (destruct (Hreq _ _ _ H)
              as (d & _ & _ & _ & _ & _ & Hm & _ & _ & Ha & Hr);
            repeat split; assumption).
  all: injection H as <- <- <-; repeat split; symmetry; assumption.
Qed.

(** The events of [CreatePost] are lines, log records and requests. *)
Lemma CreatePost_event_kinds w token content imagePath e :
  In e (snd (CreatePost w token content imagePath)) ->
  match e with
  | Prompt _ | Authenticate _ => False
  | _ => True
  end.
Proof.
  run_CreatePost w token imagePath; intro H; in_cases H.
  all: try exact I.
  all: apply Hev in H;
    destruct H as [[? H] | [[? H] | [[? H] | [? [? H]]]]]; discriminate H.
Qed.

Lemma filter_none {A} (f : A -> bool) (l : list A) :
  (forall x, In x l -> f x = false) -> filter f l = [].
Proof.
  induction l as [|a l IH]; intro H; [reflexivity |].
  cbn [filter]. rewrite (H a (or_introl eq_refl)).
  apply IH. intros x Hx. apply H. right. exact Hx.
Qed.

Lemma Inputs_no_network w text hashtags imageFile pre text' hashtags' imageFile' :
  Inputs w text hashtags imageFile pre text' hashtags' imageFile' ->
  filter isNetwork pre = [].
Proof. intros [Hflags | t h i _ _ _]; reflexivity. Qed.

(** X13: no request leaves the command before a successful
    authentication: the trace of a run that sent a request splits into an
    input stage without network events, the authentication that returned
    the token, and the rest, and the request carries that token. *)
Theorem run_requests_follow_authentication :
  forall w text hashtags imageFile timeout req res,
    In (HttpDo timeout req res) (snd (runCreate w text hashtags imageFile)) ->
    exists token pre rest,
      GetToken w = inr token /\
      snd (runCreate w text hashtags imageFile)
      = (pre ++ Authenticate (inr token) :: rest)%list /\
      filter isNetwork pre = [] /\
      In (HttpDo timeout req res) rest /\
      headerGet "Authorization" (ReqHeader req)
      = Some ("Bearer " ++ AccessJwt token).
Proof.
  intros w text hashtags imageFile timeout req res Hin.
  destruct (runCreate_cases w text hashtags imageFile)
    as [e0 _ _ _
       | pre text' hashtags' imageFile' e0 Hinputs _
       | pre text' hashtags' imageFile' token Hinputs _ _ _
       | pre text' hashtags' imageFile' token e0 posted Hinputs Htoken Hpost
       | pre text' hashtags' imageFile' token posted Hinputs Htoken Hpost];
    cbn [fst snd] in *.
  1-3: in_cases Hin; prompt_event Hinputs Hin.
  - assert (Hposted : In (HttpDo timeout req res) posted)
      by (in_cases Hin; [prompt_event Hinputs Hin | assumption]).
    exists token, pre. eexists. split; [assumption |].
    split; [reflexivity |].
    split; [exact (Inputs_no_network _ _ _ _ _ _ _ _ Hinputs) |].
    split; [apply in_or_app; left; exact Hposted |].
    pose proof (CreatePost_requests w token (composeContent text' hashtags')
                  imageFile' timeout req res) as Hreq.
    rewrite Hpost in Hreq. exact (proj1 (Hreq Hposted)).
  - assert (Hposted : In (HttpDo timeout req res) posted)
      by (in_cases Hin; [prompt_event Hinputs Hin | assumption]).
    exists token, pre. eexists. split; [assumption |].
    split; [reflexivity |].
    split; [exact (Inputs_no_network _ _ _ _ _ _ _ _ Hinputs) |].
    split; [apply in_or_app; left; exact Hposted |].
    pose proof (CreatePost_requests w token (composeContent text' hashtags')
                  imageFile' timeout req res) as Hreq.
    rewrite Hpost in Hreq. exact (proj1 (Hreq Hposted)).
Qed.

Lemma run_requests_follow_authentication_witness :
  let w := Sample.world Sample.noon Sample.noFiles
             (Sample.answer 200 Sample.createdBody) Sample.emptyForm in
  exists req,
    headerGet "Authorization" (ReqHeader req) = Some "Bearer jwt".
Proof.
  intro w.
  assert (Hsent : exists req res,
             In (HttpDo None req res) (snd (runCreate w "Hello" [] ""))).
  { do 2 eexists. lazy. right. left. reflexivity. }
  destruct Hsent as (req & res & Hsent).
  destruct (run_requests_follow_authentication w "Hello" [] "" None req res
              Hsent) as (token & pre & rest & Htoken & _ & _ & _ & Hauth).
  exists req. injection Htoken as <-. exact Hauth.
Defined.

(** X14: a failed authentication ends the run without any request: the
    command logs the error, prints the authentication message and returns
    normally, unless the form had already failed. *)
Theorem authentication_failure_sends_nothing :
  forall w text hashtags imageFile e,
    GetToken w = inl e ->
    filter isHttp (snd (runCreate w text hashtags imageFile)) = [] /\
    (fst (runCreate w text hashtags imageFile) = Done tt ->
     exists pre,
       snd (runCreate w text hashtags imageFile)
       = (pre ++ [Authenticate (inl e);
                  Slog LevelError "Failed to get authentication token"
                    [("error", LError e)];
                  Println msgAuthFailed])%list /\
       forall event, In event pre -> exists filled, event = Prompt filled).
Proof.
  intros w text hashtags imageFile e Hauth.
  destruct (runCreate_cases w text hashtags imageFile)
    as [e0 _ _ _
       | pre text' hashtags' imageFile' e0 Hinputs Htoken
       | pre text' hashtags' imageFile' token Hinputs Htoken _ _
       | pre text' hashtags' imageFile' token e0 posted Hinputs Htoken Hpost
       | pre text' hashtags' imageFile' token posted Hinputs Htoken Hpost];
    cbn [fst snd]; try congruence.
  - split; [reflexivity | discriminate].
  - assert (e0 = e) by congruence. subst e0. split.
    + rewrite filter_app. cbn [filter isHttp].
      rewrite app_nil_r. apply filter_none. intros x Hx.
      destruct (Inputs_trace _ _ _ _ _ _ _ _ Hinputs x Hx) as [filled ->].
      reflexivity.
    + intros _. exists pre. split; [reflexivity |].
      exact (Inputs_trace _ _ _ _ _ _ _ _ Hinputs).
Qed.

Lemma authentication_failure_sends_nothing_witness :
  let w := setToken
             (Sample.world Sample.noon Sample.noFiles
                (Sample.answer 200 Sample.createdBody) Sample.emptyForm)
             (inl "missing credentials") in
  filter isHttp (snd (runCreate w "Hello" [] "")) = [].
Proof.
  intro w.
  exact (proj1 (authentication_failure_sends_nothing w "Hello" [] ""
                  "missing credentials" eq_refl)).
Defined.

(** X15: the form is shown exactly when neither text nor image came from
    the flags. *)
Theorem form_shown_iff_no_input :
  forall w text hashtags imageFile,
    (exists filled,
        In (Prompt filled) (snd (runCreate w text hashtags imageFile))) <->
    text = "" /\ imageFile = "".
Proof.
  intros w text hashtags imageFile.
  assert (Hposted : forall token content imagePath filled,
             ~ In (Prompt filled) (snd (CreatePost w token content imagePath))).
  { intros token content imagePath filled H.
    exact (CreatePost_event_kinds w token content imagePath _ H). }
  assert (Hflags : forall pre text' hashtags' imageFile',
             Inputs w text hashtags imageFile pre text' hashtags' imageFile' ->
             (pre = [] /\ (text <> "" \/ imageFile <> "")) \/
             (pre = [Prompt (formRun w)] /\ text = "" /\ imageFile = "")).
  { intros pre text' hashtags' imageFile' [Hf | t h i Ht Hi _].
    - left. split; [reflexivity |].
      apply andb_false_iff in Hf as [Hf | Hf]; apply String.eqb_neq in Hf; tauto.
    - right. auto. }
  destruct (runCreate_cases w text hashtags imageFile)
    as [e0 Ht Hi _
       | pre text' hashtags' imageFile' e0 Hinputs Htoken
       | pre text' hashtags' imageFile' token Hinputs Htoken _ _
       | pre text' hashtags' imageFile' token e0 posted Hinputs Htoken Hpost
       | pre text' hashtags' imageFile' token posted Hinputs Htoken Hpost];
    cbn [fst snd].
  - split; [intros _; split; assumption |]. intros _. eexists. find_in.
  - destruct (Hflags _ _ _ _ Hinputs) as [[-> Hsome] | [-> [Ht Hi]]].
    + split; [intros [filled H]; cbn [app In] in H; in_cases H
             | intros [Ht Hi]; exfalso; destruct Hsome; contradiction].
    + split; [intros _; split; assumption |]. intros _. eexists. find_in.
  - destruct (Hflags _ _ _ _ Hinputs) as [[-> Hsome] | [-> [Ht Hi]]].
    + split; [intros [filled H]; cbn [app In] in H; in_cases H
             | intros [Ht Hi]; exfalso; destruct Hsome; contradiction].
    + split; [intros _; split; assumption |]. intros _. eexists. find_in.
  - specialize (Hposted token (composeContent text' hashtags') imageFile').
    rewrite Hpost in Hposted. cbn [snd] in Hposted.
    destruct (Hflags _ _ _ _ Hinputs) as [[-> Hsome] | [-> [Ht Hi]]].
    + split; [intros [filled H]; cbn [app In] in H; in_cases H;
              exfalso; exact (Hposted _ H)
             | intros [Ht Hi]; exfalso; destruct Hsome; contradiction].
    + split; [intros _; split; assumption |]. intros _. eexists. find_in.
  - specialize (Hposted token (composeContent text' hashtags') imageFile').
    rewrite Hpost in Hposted. cbn [snd] in Hposted.
    destruct (Hflags _ _ _ _ Hinputs) as [[-> Hsome] | [-> [Ht Hi]]].
    + split; [intros [filled H]; cbn [app In] in H; in_cases H;
              exfalso; exact (Hposted _ H)
             | intros [Ht Hi]; exfalso; destruct Hsome; contradiction].
    + split; [intros _; split; assumption |]. intros _. eexists. find_in.
Qed.

Lemma CreatePost_nil_sent w token content imagePath :
  fst (CreatePost w token content imagePath) = Done None ->
  exists req resp,
    In (HttpDo None req (inr resp))
       (snd (CreatePost w token content imagePath)) /\
    StatusCode resp = 200.
Proof.
  run_CreatePost w token imagePath; intro H; try discriminate H.
  all: match goal with
       | E : negb (StatusCode _ =? 200) = false |- _ =>
           apply negb_false_iff, Z.eqb_eq in E
       end.
  all: do 2 eexists; split; [find_in | eassumption].
Qed.

(** X16: a run that returns ends with exactly one of the three final
    messages, printed last and not before.  It is the authentication
    message exactly when [GetToken] failed; the success message comes
    only after a record-creation request answered with status 200; the
    failure message comes right after the logged error. *)
Theorem run_ends_with_one_message :
  forall w text hashtags imageFile,
    fst (runCreate w text hashtags imageFile) = Done tt ->
    exists before message,
      snd (runCreate w text hashtags imageFile)
      = (before ++ [Println message])%list /\
      In message finalMessages /\
      (forall line, In (Println line) before -> ~ In line finalMessages) /\
      (message = msgAuthFailed <-> exists e, GetToken w = inl e) /\
      (message = msgPostCreated ->
       exists req resp,
         In (HttpDo None req (inr resp)) before /\ StatusCode resp = 200) /\
      (message = msgPostFailed ->
       exists earlier e,
         before
         = (earlier ++ [Slog LevelError "Failed to create post"
                          [("error", LError e)]])%list).
Proof.
  intros w text hashtags imageFile.
  assert (Hlines : forall token content imagePath posted failed line,
             CreatePost w token content imagePath = (failed, posted) ->
             In (Println line) posted -> ~ In line finalMessages).
  { intros token content imagePath posted failed line Hpost Hin.
    pose proof (proj1 (CreatePost_output w token content imagePath) line)
      as Hout.
    rewrite Hpost in Hout. cbn [snd] in Hout.
    destruct (Hout Hin) as [-> | ->]; cbn; intros [H | [H | [H | H]]];
      try discriminate H; exact H. }
  destruct (runCreate_cases w text hashtags imageFile)
    as [e0 _ _ _
       | pre text' hashtags' imageFile' e0 Hinputs Htoken
       | pre text' hashtags' imageFile' token Hinputs Htoken _ _
       | pre text' hashtags' imageFile' token e0 posted Hinputs Htoken Hpost
       | pre text' hashtags' imageFile' token posted Hinputs Htoken Hpost];
    cbn [fst snd]; intro Hdone; try discriminate Hdone.
  - exists (pre ++ [Authenticate (inl e0);
                    Slog LevelError "Failed to get authentication token"
                      [("error", LError e0)]])%list, msgAuthFailed.
    split; [rewrite <- app_assoc; reflexivity |].
    split; [left; reflexivity |]. split; [| split; [| split]].
    + intros line H. in_cases H. prompt_event Hinputs H.
    + split; eauto.
    + discriminate.
    + discriminate.
  - exists (pre ++ [Authenticate (inr token)] ++ posted
                ++ [Slog LevelError "Failed to create post"
                      [("error", LError e0)]])%list, msgPostFailed.
    split; [rewrite <- !app_assoc; reflexivity |].
    split; [right; left; reflexivity |]. split; [| split; [| split]].
    + intros line H. in_cases H; [prompt_event Hinputs H |].
      exact (Hlines _ _ _ _ _ _ Hpost H).
    + split; [discriminate | intros [e Habs]; congruence].
    + discriminate.
    + intros _. exists (pre ++ [Authenticate (inr token)] ++ posted)%list, e0.
      rewrite <- !app_assoc. reflexivity.
  - exists (pre ++ [Authenticate (inr token)] ++ posted)%list, msgPostCreated.
    split; [rewrite <- !app_assoc; reflexivity |].
    split; [do 2 right; left; reflexivity |]. split; [| split; [| split]].
    + intros line H. in_cases H; [prompt_event Hinputs H |].
      exact (Hlines _ _ _ _ _ _ Hpost H).
    + split; [discriminate | intros [e Habs]; congruence].
    + intros _.
      pose proof (CreatePost_nil_sent w token (composeContent text' hashtags')
                    imageFile') as Hsent.
      rewrite Hpost in Hsent. cbn [fst snd] in Hsent.
      destruct (Hsent eq_refl) as (req & resp & Hin & Hstatus).
      exists req, resp. split; [| assumption].
      apply in_or_app; right. right. exact Hin.
    + discriminate.
Qed.

Lemma run_ends_with_one_message_witness :
  let w := Sample.world Sample.noon Sample.noFiles
             (Sample.answer 200 Sample.createdBody) Sample.emptyForm in
  exists before message,
    snd (runCreate w "Hello" [] "") = (before ++ [Println message])%list /\
    In message finalMessages.
Proof.
  intro w.
  destruct (run_ends_with_one_message w "Hello" [] "" eq_refl)
    as (before & message & Htrace & Hin & _).
  exists before, message. split; assumption.
Defined.

(** ** Exit status, completely *)

(** X17: the exit status of the process is 0, 1 or 2: it is 1 exactly
    when the command line did not parse or the form failed, and 2 exactly
    when the create command got its input, authenticated, and the clock
    reading made the timestamp panic. *)
Theorem exit_status_cases :
  forall w args,
    (exitStatus (Execute w args) = 1 <->
     (exists e, args = ParseFailure e) \/
     (exists hashtags e,
         args = PostsCreate "" hashtags "" /\ formRun w = inl e)) /\
    (exitStatus (Execute w args) = 2 <->
     exists text hashtags imageFile token,
       args = PostsCreate text hashtags imageFile /\
       ~ (text = "" /\ imageFile = "" /\ exists e, formRun w = inl e) /\
       GetToken w = inr token /\
       getCurrentTime (now w) = None) /\
    (exitStatus (Execute w args) = 0 \/
     exitStatus (Execute w args) = 1 \/
     exitStatus (Execute w args) = 2).
Proof.
  intros w args.
  destruct args as [e | | text hashtags imageFile]; cbn [Execute].
  - unfold exitStatus. cbn. split; [| split].
    + split; [eauto | reflexivity].
    + split; [discriminate | intros (t & h & i & tok & H & _); discriminate H].
    + auto.
  - unfold exitStatus. cbn. split; [| split].
    + split; [discriminate |].
      intros [[e H] | (h & e & H & _)]; discriminate H.
    + split; [discriminate | intros (t & h & i & tok & H & _); discriminate H].
    + auto.
  - destruct (runCreate_cases w text hashtags imageFile)
      as [e0 Ht Hi Hform
         | pre text' hashtags' imageFile' e0 Hinputs Htoken
         | pre text' hashtags' imageFile' token Hinputs Htoken Hnow _
         | pre text' hashtags' imageFile' token e0 posted Hinputs Htoken Hpost
         | pre text' hashtags' imageFile' token posted Hinputs Htoken Hpost];
      unfold exitStatus; cbn [fst].
    + subst text imageFile. split; [| split].
      * split; [| reflexivity]. intros _. right. eauto.
      * split; [discriminate |].
        intros (t & h & i & tok & Hargs & Hnot & _).
        injection Hargs as <- <- <-. exfalso. apply Hnot. eauto.
      * auto.
    + split; [| split].
      * split; [discriminate |].
        intros [[e H] | (h & e & Hargs & Hform)]; [discriminate H |].
        injection Hargs as -> -> ->.
        inversion Hinputs as [Hflags | ? ? ? ? ? Hfilled];
          [cbn in Hflags; discriminate Hflags | congruence].
      * split; [discriminate |].
        intros (t & h & i & tok & _ & _ & Htok & _). congruence.
      * auto.
    + split; [| split].
      * split; [discriminate |].
        intros [[e H] | (h & e & Hargs & Hform)]; [discriminate H |].
        injection Hargs as -> -> ->.
        inversion Hinputs as [Hflags | ? ? ? ? ? Hfilled];
          [cbn in Hflags; discriminate Hflags | congruence].
      * split; [| reflexivity]. intros _.
        exists text, hashtags, imageFile, token.
        split; [reflexivity | split; [| split; assumption]].
        intros (Ht & Hi & e & Hform). subst.
        inversion Hinputs as [Hflags | ? ? ? ? ? Hfilled];
          [cbn in Hflags; discriminate Hflags | congruence].
      * auto.
    + assert (Hsome : exists createdAt, getCurrentTime (now w) = Some createdAt).
      { destruct (CreatePost_outcome w token (composeContent text' hashtags')
                    imageFile') as [[_ Hpanic] | (c & f & Hnow & _)];
          [congruence | eauto]. }
      destruct Hsome as [createdAt Hnow]. split; [| split].
      * split; [discriminate |].
        intros [[e H] | (h & e & Hargs & Hform)]; [discriminate H |].
        injection Hargs as -> -> ->.
        inversion Hinputs as [Hflags | ? ? ? ? ? Hfilled];
          [cbn in Hflags; discriminate Hflags | congruence].
      * split; [discriminate |].
        intros (t & h & i & tok & _ & _ & _ & Hnone). congruence.
      * auto.
    + assert (Hsome : exists createdAt, getCurrentTime (now w) = Some createdAt).
      { destruct (CreatePost_outcome w token (composeContent text' hashtags')
                    imageFile') as [[_ Hpanic] | (c & f & Hnow & _)];
          [congruence | eauto]. }
      destruct Hsome as [createdAt Hnow]. split; [| split].
      * split; [discriminate |].
        intros [[e H] | (h & e & Hargs & Hform)]; [discriminate H |].
        injection Hargs as -> -> ->.
        inversion Hinputs as [Hflags | ? ? ? ? ? Hfilled];
          [cbn in Hflags; discriminate Hflags | congruence].
      * split; [discriminate |].
        intros (t & h & i & tok & _ & _ & _ & Hnone). congruence.
      * auto.
Qed.

(** ** The form and the flags *)

(** X18: filling the form is the same as passing its values as flags: a
    run that prompts and gets a text or an image behaves, after the
    prompt, as the run started with that text, that image and the
    hashtags of the form (split at commas and trimmed) or, when the form
    leaves them empty, the hashtags of the flag; hashtags typed in the
    form replace those of the flag. *)
Theorem form_values_act_as_flags :
  forall w flags text' hashtagInput imageFile',
    formRun w = inr (text', hashtagInput, imageFile') ->
    text' <> "" \/ imageFile' <> "" ->
    runCreate w "" flags ""
    = (let (outcome, trace) :=
         runCreate w text'
           (if negb (String.eqb hashtagInput "")
            then map (TrimSpace w) (splitComma hashtagInput) else flags)
           imageFile' in
       (outcome, Prompt (formRun w) :: trace)) /\
    (hashtagInput <> "" ->
     forall flags', runCreate w "" flags "" = runCreate w "" flags' "").
Proof.
  intros w flags text' hashtagInput imageFile' Hform Hsome.
  assert (Hgiven : String.eqb text' "" && String.eqb imageFile' "" = false).
  { apply andb_false_iff.
    destruct Hsome as [H | H]; apply String.eqb_neq in H; auto. }
  split.
  - unfold runCreate, runForm. rewrite Hgiven. cbn [String.eqb andb].
    rewrite Hform. run_unfold.
    destruct (negb (String.eqb hashtagInput "")); cbv beta iota;
      match goal with
      | |- context [let (_, _) := ?x in _] => destruct x as [outcome trace]
      end; reflexivity.
  - intros Hinput flags'. apply String.eqb_neq in Hinput.
    unfold runCreate, runForm. cbn [String.eqb andb].
    rewrite Hform. run_unfold. rewrite Hinput. reflexivity.
Qed.

Lemma form_values_act_as_flags_witness :
  let w := Sample.world Sample.noon Sample.noFiles
             (Sample.answer 200 Sample.createdBody)
             (inr ("Hello", "go,rocq", "")) in
  runCreate w "" ["ignored"] ""
  = (let (outcome, trace) := runCreate w "Hello" ["go"; "rocq"] "" in
     (outcome, Prompt (inr ("Hello", "go,rocq", "")) :: trace)).
Proof.
  intro w.
  assert (Hform : formRun w = inr ("Hello", "go,rocq", "")) by reflexivity.
  assert (Hsome : "Hello" <> "" \/ "" <> "") by (left; discriminate).
  pose proof (form_values_act_as_flags w ["ignored"] "Hello" "go,rocq" ""
                Hform Hsome) as [H _].
  assert (Hflags : (if negb (String.eqb "go,rocq" "")
                    then map (TrimSpace w) (splitComma "go,rocq")
                    else ["ignored"]) = ["go"; "rocq"]) by reflexivity.
  rewrite Hflags in H.
  rewrite Hform in H.
  exact H.
Defined.

(** ** The revision that prompts for the text alone *)

Lemma CreatePost_setForm w form token content imagePath :
  CreatePost (setForm w form) token content imagePath
  = CreatePost w token content imagePath.
Proof. reflexivity. Qed.

(** X19: the revision that prompts for the text alone is the current
    command with a form that leaves the hashtags and the image empty:
    both produce the same outcome and the same trace. *)
Theorem PromptOnly_is_the_form_without_hashtags_and_image :
  forall w inputRun text hashtags imageFile,
    PromptOnly.runCreate w inputRun text hashtags imageFile
    = runCreate (setForm w (PromptOnly.filled inputRun)) text hashtags imageFile.
Proof.
  intros w inputRun text hashtags imageFile.
  unfold PromptOnly.runCreate, runCreate, runForm, getToken.
  repeat rewrite CreatePost_setForm. cbn [formRun GetToken setForm TrimSpace].
  destruct (String.eqb text "" && String.eqb imageFile "") eqn:Hempty;
    [| reflexivity].
  apply andb_prop in Hempty as [_ Himage]. apply String.eqb_eq in Himage.
  subst imageFile.
  destruct inputRun as [e | text']; reflexivity.
Qed.

(** X20: in the current revision the command authenticates in every run
    in which the form did not fail, whether or not the form (or the
    flags) gave it anything to post. *)
Theorem run_authenticates_unless_form_fails :
  forall w text hashtags imageFile,
    In (Authenticate (GetToken w)) (snd (runCreate w text hashtags imageFile))
    <-> ~ (text = "" /\ imageFile = "" /\ exists e, formRun w = inl e).
Proof.
  intros w text hashtags imageFile.
  destruct (runCreate_cases w text hashtags imageFile)
    as [e0 Ht Hi Hform
       | pre text' hashtags' imageFile' e0 Hinputs Htoken
       | pre text' hashtags' imageFile' token Hinputs Htoken _ _
       | pre text' hashtags' imageFile' token e0 posted Hinputs Htoken Hpost
       | pre text' hashtags' imageFile' token posted Hinputs Htoken Hpost];
    cbn [fst snd]; try rewrite Htoken.
  - split; [intro H; in_cases H | intro H; exfalso; apply H; eauto].
  - split; [| intros _; find_in].
    intros _ (Ht & Hi & e & Hform). subst.
    inversion Hinputs as [Hflags | ? ? ? ? ? Hfilled];
      [cbn in Hflags; discriminate Hflags | congruence].
  - split; [| intros _; find_in].
    intros _ (Ht & Hi & e & Hform). subst.
    inversion Hinputs as [Hflags | ? ? ? ? ? Hfilled];
      [cbn in Hflags; discriminate Hflags | congruence].
  - split; [| intros _; find_in].
    intros _ (Ht & Hi & e & Hform). subst.
    inversion Hinputs as [Hflags | ? ? ? ? ? Hfilled];
      [cbn in Hflags; discriminate Hflags | congruence].
  - split; [| intros _; find_in].
    intros _ (Ht & Hi & e & Hform). subst.
    inversion Hinputs as [Hflags | ? ? ? ? ? Hfilled];
      [cbn in Hflags; discriminate Hflags | congruence].
Qed.

(** ** The flags-only revision *)

(** X21: the flags-only revision does not attach the image: with an image
    path [createPost] logs and prints that the feature is missing and
    then does exactly what it does without one, sending the same record. *)
Theorem FlagsOnly_createPost_ignores_the_image :
  forall w createdAt token content imagePath,
    imagePath <> "" ->
    FlagsOnly.createPost w createdAt token content imagePath
    = (let (failed, trace) := FlagsOnly.createPost w createdAt token content "" in
       (failed,
        Slog LevelInfo
          "Image attachment requested but not implemented in this version" []
        :: Println "Note: Image attachment functionality is not yet implemented"
        :: trace)).
Proof.
  intros w createdAt token content imagePath Hpath.
  apply String.eqb_neq in Hpath.
  unfold FlagsOnly.createPost, httpNewRequest. rewrite Hpath.
  cbn [String.eqb negb]. run_unfold.
  repeat split_scrutinee; reflexivity.
Qed.

Lemma FlagsOnly_createPost_ignores_the_image_witness :
  let w := Sample.world Sample.noon Sample.noFiles
             (Sample.answer 200 Sample.createdBody) Sample.emptyForm in
  filter isHttp
    (snd (FlagsOnly.createPost w "2025-01-02T13:00:00+01:00" Sample.token
            "Hello" "cat.gif"))
  = filter isHttp
      (snd (FlagsOnly.createPost w "2025-01-02T13:00:00+01:00" Sample.token
              "Hello" "")).
Proof.
  intro w.
  rewrite (FlagsOnly_createPost_ignores_the_image w
             "2025-01-02T13:00:00+01:00" Sample.token "Hello" "cat.gif"
             ltac:(discriminate)).
  reflexivity.
Defined.

(** X22: the flags-only revision touches the network exactly when a text
    or an image was given; otherwise it prints the missing-input message
    and nothing else. *)
Theorem FlagsOnly_network_iff_input :
  forall w createdAt text hashtags imageFile,
    (existsb isNetwork
       (snd (FlagsOnly.runCreate w createdAt text hashtags imageFile)) = true
     <-> text <> "" \/ imageFile <> "") /\
    (In (Println msgMissingInput)
        (snd (FlagsOnly.runCreate w createdAt text hashtags imageFile))
     <-> text = "" /\ imageFile = "").
Proof.
  intros w createdAt text hashtags imageFile.
  unfold FlagsOnly.runCreate, getToken.
  destruct (String.eqb_spec text "") as [Ht | Ht];
    destruct (String.eqb_spec imageFile "") as [Hi | Hi]; cbn [andb].
  1: { split; split; cbn; try tauto; try discriminate;
         intros [H | H]; contradiction. }
  all: unfold FlagsOnly.createPost, httpNewRequest; run_unfold;
    repeat split_scrutinee; cbn [snd app existsb isNetwork orb].
  all: split; split; try (intros _; reflexivity); try (intros _; tauto).
  all: try (intros [Ht' Hi']; contradiction).
  all: intro H; cbn [In] in H; in_cases H.
Qed.

(** ** Timestamps of both revisions *)

Lemma zone_fields (offset : Z) :
  -86400 < offset < 86400 ->
  0 <= Z.abs (Z.quot offset 60) / 60 < 100 /\
  0 <= Z.abs (Z.quot offset 60) mod 60 < 100.
Proof.
  intro H.
  assert (Hq : Z.abs (Z.quot offset 60) = Z.abs offset / 60).
  { rewrite <- Z.quot_abs by lia. apply Z.quot_div_nonneg; lia. }
  rewrite Hq.
  assert (0 <= Z.abs offset / 60 < 1440)
    by (split; [apply Z.div_pos; lia | apply Z.div_lt_upper_bound; lia]).
  split.
  - split; [apply Z.div_pos; lia | apply Z.div_lt_upper_bound; lia].
  - pose proof (Z.mod_pos_bound (Z.abs offset / 60) 60 ltac:(lia)). lia.
Qed.

(** X23: the timestamp of the flags-only revision is an RFC 3339 instant
    with whole seconds: date and time of the local clock followed by [Z]
    for a zero offset and by the signed offset in hours and minutes
    otherwise; it has no fraction and its length is 20 or 25. *)
Theorem FlagsOnly_getCurrentTime_shape :
  forall local offset,
    wellFormedTime local ->
    -86400 < offset < 86400 ->
    (offset = 0 ->
     matchesPattern (rfc3339Seconds [Lit "Z"])
       (FlagsOnlyClock.getCurrentTime local offset) = true) /\
    (offset <> 0 ->
     matchesPattern
       (rfc3339Seconds (numericZone (if Z.quot offset 60 <? 0 then "-" else "+")))
       (FlagsOnlyClock.getCurrentTime local offset) = true).
Proof.
  intros local offset (Hy & Hmo & Hd & Hh & Hmi & Hs & Hns) Hoffset.
  destruct (zone_fields offset Hoffset) as [Hhours Hminutes].
  unfold FlagsOnlyClock.getCurrentTime, FlagsOnlyClock.formatRFC3339,
    FlagsOnlyClock.zoneSuffix, rfc3339Seconds, numericZone.
  rewrite !appendInt_fits by (cbn; lia).
  split; intro Hzero.
  - subst offset. cbn [Z.eqb lastDigits append matchesPattern app].
    rewrite !digitChar_mod10. reflexivity.
  - apply Z.eqb_neq in Hzero. rewrite Hzero.
    destruct (Z.quot offset 60 <? 0);
      cbn [lastDigits append matchesPattern app];
      rewrite !digitChar_mod10; reflexivity.
Qed.

Lemma FlagsOnly_getCurrentTime_shape_witness :
  FlagsOnlyClock.getCurrentTime Sample.noon 0 = "2025-01-02T12:00:00Z" /\
  FlagsOnlyClock.getCurrentTime Sample.noon (-19800) = "2025-01-02T12:00:00-05:30" /\
  matchesPattern (rfc3339Seconds (numericZone "-"))
    (FlagsOnlyClock.getCurrentTime Sample.noon (-19800)) = true.
Proof.
  split; [reflexivity | split; [reflexivity |]].
  assert (Hwf : wellFormedTime Sample.noon)
    by (unfold wellFormedTime; cbn; lia).
  exact (proj2 (FlagsOnly_getCurrentTime_shape Sample.noon (-19800) Hwf
                  ltac:(lia)) ltac:(discriminate)).
Defined.

Lemma sliceTo_length (n : nat) :
  forall s p, sliceTo n s = Some p -> String.length p = n.
Proof.
  induction n as [|n IH]; intros s p H.
  - injection H as <-. reflexivity.
  - destruct s as [|c s]; [discriminate H |].
    cbn [sliceTo] in H. destruct (sliceTo n s) as [q |] eqn:Hq;
      [| discriminate H].
    injection H as <-. cbn [String.length]. f_equal. exact (IH s q Hq).
Qed.

(** X24: whatever [getCurrentTime] returns has 24 bytes, for a well-formed
    clock reading it is a valid millisecond timestamp exactly when the
    nanosecond field is not a multiple of 10,000,000, and then it is the
    reading with the fraction cut, not rounded, to milliseconds. *)
Theorem getCurrentTime_cuts_to_milliseconds :
  forall t,
    (forall s, getCurrentTime t = Some s -> String.length s = 24%nat) /\
    (wellFormedTime t ->
     ((exists s, getCurrentTime t = Some s /\ validTimestamp s = true) <->
      Nanosecond t mod 10000000 <> 0) /\
     (Nanosecond t mod 10000000 <> 0 ->
      getCurrentTime t = Some (timestampSpec t))).
Proof.
  intro t. split.
  - intros s. unfold getCurrentTime.
    destruct (sliceTo 23 (formatRFC3339Nano t)) as [p |] eqn:Hp;
      [| discriminate].
    intro H. injection H as <-.
    rewrite length_append, (sliceTo_length 23 _ _ Hp). reflexivity.
  - intro Hwf. split.
    + apply getCurrentTime_valid_iff. exact Hwf.
    + intro Hmod. exact (proj1 (getCurrentTime_valid t Hwf Hmod)).
Qed.

Lemma getCurrentTime_cuts_to_milliseconds_witness :
  getCurrentTime (mkTime 2025 1 2 12 0 0 678999999)
  = Some "2025-01-02T12:00:00.678Z".
Proof.
  assert (Hwf : wellFormedTime (mkTime 2025 1 2 12 0 0 678999999))
    by (unfold wellFormedTime; cbn; lia).
  exact (proj2 (proj2 (getCurrentTime_cuts_to_milliseconds
                         (mkTime 2025 1 2 12 0 0 678999999)) Hwf)
           ltac:(cbn; discriminate)).
Defined.

(** ** The composed content *)

Lemma prefix_append (a b : string) : prefix a (a ++ b) = true.
Proof.
  induction a as [|c a IH]; cbn [prefix append].
  - destruct b; reflexivity.
  - destruct (ascii_dec c c) as [_ | Hc]; [exact IH | contradiction].
Qed.

(** X25: the composed content starts with the text and grows by two
    bytes and the tag for each hashtag, empty hashtags included; nothing
    bounds its length.  Composing over a concatenation is composing in
    turn. *)
Theorem composeContent_length :
  forall text hashtags,
    String.length (composeContent text hashtags)
    = (String.length text
       + fold_right (fun tag n => 2 + String.length tag + n) 0 hashtags)%nat /\
    prefix text (composeContent text hashtags) = true /\
    forall more,
      composeContent text (hashtags ++ more)
      = composeContent (composeContent text hashtags) more.
Proof.
  intros text hashtags. split; [| split].
  - revert text. induction hashtags as [|tag rest IH]; intro text.
    + cbn. lia.
    + change (composeContent text (tag :: rest))
        with (composeContent (text ++ " #" ++ tag) rest).
      rewrite IH, length_append. cbn [String.length append fold_right]. lia.
  - rewrite composeContent_append. apply prefix_append.
  - intro more. unfold composeContent. apply fold_left_app.
Qed.

(** ** The order of the requests *)

(** X26: the requests of [CreatePost], in the order sent, are the
    requests of the upload, if an image was given and the upload ran,
    followed by the record-creation request, if one was sent. *)
Theorem CreatePost_requests_in_order :
  forall w token content imagePath,
    exists uploads records,
      filter isHttp (snd (CreatePost w token content imagePath))
      = (uploads ++ records)%list /\
      (uploads = [] \/
       imagePath <> "" /\
       uploads = filter isHttp (snd (uploadImage w token imagePath))) /\
      (records = [] \/
       exists req res,
         records = [HttpDo None req res] /\
         URL req = API_URL w ++ "/com.atproto.repo.createRecord").
Proof.
  intros w token content imagePath.
  run_CreatePost w token imagePath.
  all: repeat rewrite filter_app.
  all: cbn [filter isHttp app].
  all: repeat rewrite filter_app.
  all: cbn [filter isHttp app].
  all: rewrite ?app_nil_r.
  all: try match goal with
       | E : negb (String.eqb _ "") = true |- _ =>
           apply negb_true_iff, String.eqb_neq in E
       end.
  all: first
    [ exists [], []; split; [reflexivity | split; left; reflexivity]
    | exists (filter isHttp tu), [];
      split; [rewrite app_nil_r; reflexivity |];
      split; [right; split; [assumption | reflexivity] | left; reflexivity]
    | match goal with
      | |- context [HttpDo None ?req ?res] =>
          first
            [ exists [], [HttpDo None req res];
              split; [reflexivity |];
              split; [left; reflexivity |];
              right; exists req, res; split; reflexivity
            | exists (filter isHttp tu), [HttpDo None req res];
              split; [reflexivity |];
              split; [right; split; [assumption | reflexivity] |];
              right; exists req, res; split; reflexivity ]
      end ].
Qed.
